(** * RESTful-API-Assessment: the in-memory store and its route handlers

    A shallow embedding of the entity store ([data/store.js], the second
    file of [src/middleware/notFound.js]), of the [validate] middleware
    ([middleware/validation.js], the second file of [src/unnamed/part_000])
    and of the routes of [src/routes/users.js], [src/routes/products.js]
    and of the orders router ([routes/orders.js], [src/unnamed/part_002]):
    their handlers and, where they rewrite the request, their validation
    chains, followed by the properties of the specification that were
    checked against them.

    JavaScript objects are finite maps from property names to JSON values,
    the three collections are lists of such objects, numbers that the code
    multiplies and adds are IEEE-754 doubles, and the two sources of
    non-determinism of the store ([uuidv4()] and [new Date()]) are read
    from an environment carried by the state. *)

From Stdlib Require Import PrimFloat ZArith Lia.
From stdpp Require Import gmap strings list fin_maps.

Set Warnings "-register-all,-inexact-float,-clear-no-such-hyp".

(** ** JSON values *)

(** A parsed JSON value.  The JavaScript [undefined] is not a JSON value:
    it is what reading a missing property gives, and is modelled by [None]
    in [option value]. *)
Inductive value : Type :=
| VNull
| VBool (b : bool)
| VNum (f : float)
| VStr (s : string)
| VArr (l : list value)
| VObj (o : gmap string value).

(** A record of a collection, a request body: a JavaScript object. *)
Abbreviation obj := (gmap string value).

(** The parts of the JavaScript runtime and of the validator library that
    the handlers call and that are not code of this repository. *)
Class Runtime : Type := {
  (** [parseInt(s)], [None] standing for [NaN] *)
  parseInt : string → option Z;
  (** [parseFloat(s)] *)
  parseFloat : string → float;
  (** [s.toLowerCase()] *)
  toLowerCase : string → string;
  (** [Number(v)] for a string, an array or an object *)
  ToNumberOther : value → float;
  (** [String(v)] for a number, an array or an object *)
  ToStringOther : value → string;
  (** validator.js [isUUID] *)
  isUUID : string → bool;
  (** the string the validator library checks in place of a value that is
      not a string *)
  validatorString : value → string
}.

Module Js.

(** [!!v] for a value read from an object: [undefined], [null], [false],
    [0], [NaN] and the empty string are falsy. *)
Definition truthy (v : option value) : bool :=
  match v with
  | None => false
  | Some VNull => false
  | Some (VBool b) => b
  | Some (VNum f) => negb (PrimFloat.eqb f 0 || negb (PrimFloat.eqb f f))
  | Some (VStr s) => negb (String.eqb s "")
  | Some (VArr _) => true
  | Some (VObj _) => true
  end.

(** [a === b] between a value held by the store and a value that comes
    from the request.  Primitives compare by content (doubles as IEEE
    does: [NaN] differs from itself).  Arrays and objects compare by
    reference, and a freshly parsed request never shares a reference with
    the store, so they are never equal. *)
Definition strict_eq (a b : option value) : bool :=
  match a, b with
  | None, None => true
  | Some VNull, Some VNull => true
  | Some (VBool x), Some (VBool y) => Bool.eqb x y
  | Some (VNum x), Some (VNum y) => PrimFloat.eqb x y
  | Some (VStr x), Some (VStr y) => String.eqb x y
  | _, _ => false
  end.

(** [Number(v)], the coercion applied by [*] and by [>=]. *)
Definition ToNumber `{Runtime} (v : option value) : float :=
  match v with
  | None => nan
  | Some VNull => 0%float
  | Some (VBool true) => 1%float
  | Some (VBool false) => 0%float
  | Some (VNum f) => f
  | Some w => ToNumberOther w
  end.

(** [String(v)], the coercion applied by a template literal. *)
Definition ToString `{Runtime} (v : option value) : string :=
  match v with
  | None => "undefined"
  | Some VNull => "null"
  | Some (VBool true) => "true"
  | Some (VBool false) => "false"
  | Some (VStr s) => s
  | Some w => ToStringOther w
  end.

(** [arr.findIndex(p)], with [None] for the [-1] of JavaScript. *)
Fixpoint findIndex {A : Type} (p : A → bool) (l : list A) : option nat :=
  match l with
  | [] => None
  | x :: l' => if p x then Some 0%nat else S <$> findIndex p l'
  end.

(** [arr.slice(start, end)]: a negative index counts from the end, and
    both are clamped to the array. *)
Definition slice_index (len i : Z) : Z :=
  if (i <? 0)%Z then Z.max (len + i) 0 else Z.min i len.

Definition slice {A : Type} (l : list A) (start stop : Z) : list A :=
  let len := Z.of_nat (length l) in
  let k := slice_index len start in
  let final := slice_index len stop in
  take (Z.to_nat (final - k)) (drop (Z.to_nat k) l).

(** [Math.ceil(a / b)] on integers (exact below 2^53). *)
Definition ceil_div (a b : Z) : Z := (- ((- a) / b))%Z.

(** [s.includes(t)] *)
Fixpoint includes (s t : string) : bool :=
  String.prefix t s ||
  match s with
  | EmptyString => false
  | String _ s' => includes s' t
  end.

End Js.

(** ** The state: three collections and the environment *)

(** [let users = [...]], [let products = [...]], [let orders = [...]] *)
Record Store : Type := {
  users : list obj;
  products : list obj;
  orders : list obj
}.

(** The store together with what [uuidv4()] and [new Date().toISOString()]
    are going to answer: the n-th call reads the n-th entry. *)
Record World : Type := {
  store : Store;
  uuid_source : nat → string;
  uuid_calls : nat;
  clock_source : nat → string;
  clock_calls : nat
}.

Definition with_store (s : Store) (w : World) : World :=
  {| store := s; uuid_source := uuid_source w; uuid_calls := uuid_calls w;
     clock_source := clock_source w; clock_calls := clock_calls w |}.

(** A computation either returns or throws (a [TypeError]); the state it
    leaves is kept in both cases. *)
Inductive outcome (A : Type) : Type :=
| Returned (a : A)
| Thrown.
Arguments Returned {A} a.
Arguments Thrown {A}.

Definition M (A : Type) : Type := World → outcome A * World.

#[global] Instance M_ret : MRet M := λ A a w, (Returned a, w).
#[global] Instance M_bind : MBind M := λ A B f m w,
  match m w with
  | (Returned a, w') => f a w'
  | (Thrown, w') => (Thrown, w')
  end.

Definition throw {A : Type} : M A := λ w, (Thrown, w).

(** [uuidv4()] *)
Definition uuidv4 : M string := λ w,
  (Returned (uuid_source w (uuid_calls w)),
   {| store := store w; uuid_source := uuid_source w;
      uuid_calls := S (uuid_calls w);
      clock_source := clock_source w; clock_calls := clock_calls w |}).

(** [new Date().toISOString()] *)
Definition read_clock (w : World) : string * World :=
  (clock_source w (clock_calls w),
   {| store := store w; uuid_source := uuid_source w;
      uuid_calls := uuid_calls w;
      clock_source := clock_source w; clock_calls := S (clock_calls w) |}).

Definition now : M string := λ w,
  (Returned (read_clock w).1, (read_clock w).2).

(** ** data/store.js (in src/middleware/notFound.js, from line 12) *)

Module DataStore.

(** [const generateId = () => uuidv4()] *)
Definition generateId : M string := uuidv4.

(** [const getCurrentTimestamp = () => new Date().toISOString()] *)
Definition getCurrentTimestamp : M string := now.

(** The three operation tables ([userOperations], [productOperations],
    [orderOperations]) are the same code over three arrays. *)
Inductive collection : Type := Users | Products | Orders.

Definition rows (c : collection) (s : Store) : list obj :=
  match c with
  | Users => users s
  | Products => products s
  | Orders => orders s
  end.

Definition set_rows (c : collection) (l : list obj) (s : Store) : Store :=
  match c with
  | Users => {| users := l; products := products s; orders := orders s |}
  | Products => {| users := users s; products := l; orders := orders s |}
  | Orders => {| users := users s; products := products s; orders := l |}
  end.

Definition read (c : collection) : M (list obj) := λ w,
  (Returned (rows c (store w)), w).

Definition write (c : collection) (l : list obj) : M unit := λ w,
  (Returned tt, with_store (set_rows c l (store w)) w).

Definition has_id (id : option value) (r : obj) : bool :=
  Js.strict_eq (r !! "id") id.

(** [getAll: () => [...users]] *)
Definition getAll (c : collection) : M (list obj) := read c.

(** [getById: (id) => users.find((user) => user.id === id)] *)
Definition getById (c : collection) (id : option value) : M (option obj) :=
  l ← read c; mret (find (has_id id) l).

(** [{ id: generateId(), ...userData, createdAt: ..., updatedAt: ... }] *)
Definition new_record (id : string) (data : obj) (createdAt updatedAt : string)
  : obj :=
  <["updatedAt" := VStr updatedAt]>
    (<["createdAt" := VStr createdAt]> (data ∪ {["id" := VStr id]})).

(** [create: (userData) => { ...; users.push(newUser); return newUser; }] *)
Definition create (c : collection) (data : obj) : M obj :=
  id ← generateId;
  createdAt ← getCurrentTimestamp;
  updatedAt ← getCurrentTimestamp;
  let newRecord := new_record id data createdAt updatedAt in
  l ← read c;
  _ ← write c (l ++ [newRecord]);
  mret newRecord.

(** [{ ...users[index], ...userData, updatedAt: getCurrentTimestamp() }] *)
Definition merged_record (old data : obj) (updatedAt : string) : obj :=
  <["updatedAt" := VStr updatedAt]> (data ∪ old).

(** [update: (id, userData) => { ... }] with [None] for [null]; the index
    that [findIndex] gives is always in range, so that [users[index]] is
    always a record. *)
Definition update (c : collection) (id : option value) (data : obj)
  : M (option obj) :=
  l ← read c;
  match Js.findIndex (has_id id) l with
  | None => mret None
  | Some index =>
      match l !! index with
      | None => mret None
      | Some old =>
          updatedAt ← getCurrentTimestamp;
          let merged := merged_record old data updatedAt in
          _ ← write c (<[index := merged]> l);
          mret (Some merged)
      end
  end.

(** [delete: (id) => { ...; users.splice(index, 1); return true; }] *)
Definition delete (c : collection) (id : option value) : M bool :=
  l ← read c;
  match Js.findIndex (has_id id) l with
  | None => mret false
  | Some index =>
      _ ← write c (base.delete index l);
      mret true
  end.

(** The state after [create] has stored [r]: one identifier and two clock
    readings were taken. *)
Definition created (c : collection) (r : obj) (w : World) : World :=
  {| store := set_rows c (rows c (store w) ++ [r]) (store w);
     uuid_source := uuid_source w; uuid_calls := S (uuid_calls w);
     clock_source := clock_source w; clock_calls := S (S (clock_calls w)) |}.

(** The state after [update] has replaced the record at [i] by [r]. *)
Definition updated (c : collection) (i : nat) (r : obj) (w : World) : World :=
  with_store (set_rows c (<[i := r]> (rows c (store w))) (store w))
    (read_clock w).2.

(** The arrays as the module initialises them. *)
Definition john_doe : obj :=
  {[ "id" := VStr "550e8400-e29b-41d4-a716-446655440000";
     "name" := VStr "John Doe";
     "email" := VStr "john.doe@example.com";
     "age" := VNum 30;
     "createdAt" := VStr "2024-01-15T10:00:00.000Z";
     "updatedAt" := VStr "2024-01-15T10:00:00.000Z" ]}.

Definition jane_smith : obj :=
  {[ "id" := VStr "550e8400-e29b-41d4-a716-446655440001";
     "name" := VStr "Jane Smith";
     "email" := VStr "jane.smith@example.com";
     "age" := VNum 25;
     "createdAt" := VStr "2024-01-15T11:00:00.000Z";
     "updatedAt" := VStr "2024-01-15T11:00:00.000Z" ]}.

Definition seed_users : list obj := [ john_doe; jane_smith ].

Definition iphone_15_pro : obj :=
  {[ "id" := VStr "660e8400-e29b-41d4-a716-446655440000";
     "name" := VStr "iPhone 15 Pro";
     "description" := VStr "Latest iPhone with advanced features";
     "price" := VNum 999.99;
     "category" := VStr "electronics";
     "inStock" := VBool true;
     "createdAt" := VStr "2024-01-15T10:00:00.000Z";
     "updatedAt" := VStr "2024-01-15T10:00:00.000Z" ]}.

Definition macbook_air_m2 : obj :=
  {[ "id" := VStr "660e8400-e29b-41d4-a716-446655440001";
     "name" := VStr "MacBook Air M2";
     "description" := VStr "Powerful laptop with M2 chip";
     "price" := VNum 1199.99;
     "category" := VStr "electronics";
     "inStock" := VBool true;
     "createdAt" := VStr "2024-01-15T10:00:00.000Z";
     "updatedAt" := VStr "2024-01-15T10:00:00.000Z" ]}.

Definition cotton_t_shirt : obj :=
  {[ "id" := VStr "660e8400-e29b-41d4-a716-446655440002";
     "name" := VStr "Cotton T-Shirt";
     "description" := VStr "Comfortable cotton t-shirt";
     "price" := VNum 29.99;
     "category" := VStr "clothing";
     "inStock" := VBool true;
     "createdAt" := VStr "2024-01-15T10:00:00.000Z";
     "updatedAt" := VStr "2024-01-15T10:00:00.000Z" ]}.

Definition seed_products : list obj :=
  [ iphone_15_pro; macbook_air_m2; cotton_t_shirt ].

Definition delivered_order : obj :=
  {[ "id" := VStr "770e8400-e29b-41d4-a716-446655440000";
     "userId" := VStr "550e8400-e29b-41d4-a716-446655440000";
     "products" := VArr
       [ VObj {[ "productId" := VStr "660e8400-e29b-41d4-a716-446655440000";
                 "quantity" := VNum 1;
                 "price" := VNum 999.99 ]} ];
     "totalAmount" := VNum 999.99;
     "status" := VStr "delivered";
     "createdAt" := VStr "2024-01-15T12:00:00.000Z";
     "updatedAt" := VStr "2024-01-15T12:00:00.000Z" ]}.

Definition seed_orders : list obj := [ delivered_order ].

Definition seed : Store :=
  {| users := seed_users; products := seed_products; orders := seed_orders |}.

End DataStore.

(** ** Responses *)

(** [pagination: { page, limit, total, totalPages }] *)
Record Pagination : Type := {
  page : Z;
  limit : Z;
  total : Z;
  totalPages : Z
}.

(** One entry of the [errors] array of a validation failure. *)
Record FieldError : Type := {
  field : string;
  message : string;
  rejected : option value
}.

(** The bodies the handlers send. *)
Inductive json : Type :=
| ErrorJson (message : string) (statusCode : Z) (timestamp : string)
    (** [{ error: true, message, statusCode, timestamp }] *)
| ValidationJson (timestamp : string) (errors : list FieldError)
    (** [{ error: true, message: "Validation failed", statusCode: 400,
           timestamp, errors }] *)
| DataJson (data : option obj)
    (** [{ success: true, data }] *)
| MessageDataJson (message : string) (data : option obj)
    (** [{ success: true, message, data }], [None] being [null] *)
| ListJson (data : list obj) (pagination : Pagination)
    (** [{ success: true, data, pagination }] *)
| MessageJson (message : string)
    (** [{ success: true, message }] *).

(** [res.status(status).json(payload)] *)
Record response : Type := {
  status : Z;
  payload : json
}.

Definition Handler : Type := World → response * World.

(** [{ error: true, message, statusCode: code, timestamp }] with its status *)
Definition error_response (code : Z) (message timestamp : string) : response :=
  {| status := code; payload := ErrorJson message code timestamp |}.

(** [return res.status(code).json({ error: true, message, statusCode: code,
    timestamp: new Date().toISOString() })] *)
Definition respond_error (code : Z) (message : string) : M response :=
  timestamp ← now;
  mret (error_response code message timestamp).

(** [try { ... } catch (error) { res.status(500).json({ ... message ... }) }] *)
Definition try_catch (body : M response) (message : string) : Handler := λ w,
  match body w with
  | (Returned r, w') => (r, w')
  | (Thrown, w') =>
      (error_response 500 message (read_clock w').1, (read_clock w').2)
  end.

(** ** The validation chains of the routes *)

(** The sanitizers and validators of validator.js that the chains of the
    routes name besides [isUUID]; like it they are not code of this
    repository. *)
Class Checks : Type := {
  (** [trim(s)] *)
  trim : string → string;
  (** [normalizeEmail(s)]: a string, or [false] *)
  normalizeEmail : string → value;
  (** [isEmail(s)] *)
  isEmail : string → bool;
  (** [isLength(s, { min, max })], [min] being 0 when it is not given *)
  isLength : Z → Z → string → bool;
  (** [isInt(s, { min, max })] *)
  isInt : Z → Z → string → bool;
  (** [isFloat(s, { min })] *)
  isFloat : Z → string → bool;
  (** [isBoolean(s)] *)
  isBoolean : string → bool
}.

(** ** middleware/validation.js (in src/unnamed/part_000, from line 89) *)

Module Validation.

(** [validate]: with no validation error the request goes on to the
    handler; otherwise it is answered with 400 and the list of errors. *)
Definition validate (errors : list FieldError) (next : Handler) : Handler :=
  match errors with
  | [] => next
  | _ => λ w,
      ({| status := 400;
          payload := ValidationJson (read_clock w).1 errors |},
       (read_clock w).2)
  end.

(** [param("id").isUUID().withMessage(msg)] *)
Definition param_id_isUUID `{Runtime} (id : string) (msg : string)
  : list FieldError :=
  if isUUID id then []
  else [ {| field := "id"; message := msg; rejected := Some (VStr id) |} ].

(** The string a validator checks. *)
Definition checked_string `{Runtime} (v : value) : string :=
  match v with
  | VStr s => s
  | _ => validatorString v
  end.

(** How express-validator, which is not code of this repository either,
    runs the chains that the routes give it.  What a validator or a
    sanitizer of a chain runs on: each element of an array, or the value
    itself ([Array.isArray(value) ? value : [value]]). *)
Definition instances (v : option value) : list (option value) :=
  match v with
  | Some (VArr l) => Some <$> l
  | _ => [v]
  end.

(** The string it is given: the empty string for [undefined]. *)
Definition text `{Runtime} (v : option value) : string :=
  match v with
  | Some x => checked_string x
  | None => ""
  end.

(** A validator with its message: one error, on the field [name], for
    each instance that fails the [test]. *)
Definition failures `{Runtime} (name msg : string) (test : string → bool)
    (v : option value) : list FieldError :=
  (λ x, {| field := name; message := msg; rejected := x |})
    <$> List.filter (λ x, negb (test (text x))) (instances v).

(** A sanitizer: the value becomes the sanitised string of the value, an
    array the array of the sanitised strings of its elements. *)
Definition sanitised `{Runtime} (f : string → value) (v : option value)
  : value :=
  match v with
  | Some (VArr l) => VArr ((λ x, f (checked_string x)) <$> l)
  | _ => f (text v)
  end.

(** [body(name).optional().isIn(allowed).withMessage(msg)] *)
Definition body_optional_isIn `{Runtime} (body : obj) (name : string)
    (allowed : list string) (msg : string) : list FieldError :=
  match body !! name with
  | None => []
  | Some v => failures name msg (λ s, bool_decide (s ∈ allowed)) (Some v)
  end.

(** One call of a chain, [body(name).trim().isLength(...)...]: a
    sanitizer, or a validator with the message that [withMessage] gives
    it. *)
Inductive item : Type :=
| Sanitize (f : string → value)
| Check (test : string → bool) (msg : string).

(** A chain: the field of the body it is about, whether it has
    [optional()], and its calls in their order. *)
Record chain : Type := {
  target : string;
  optional : bool;
  items : list item
}.

(** An item runs on the value that the items before it have left. *)
Definition run_item `{Runtime} (name : string) (it : item) (v : option value)
  : list FieldError * option value :=
  match it with
  | Sanitize f => ([], Some (sanitised f v))
  | Check test msg => (failures name msg test v, v)
  end.

Fixpoint run_items `{Runtime} (name : string) (its : list item)
    (v : option value) : list FieldError * option value :=
  match its with
  | [] => ([], v)
  | it :: rest =>
      let r := run_item name it v in
      let r' := run_items name rest r.2 in
      (r.1 ++ r'.1, r'.2)
  end.

(** A chain runs on its field of the body and writes the value it ends
    with back into the body; with [optional()] a field that is
    [undefined] is skipped. *)
Definition run_chain `{Runtime} (c : chain) (body : obj)
  : list FieldError * obj :=
  match optional c, body !! target c with
  | true, None => ([], body)
  | _, v =>
      let r := run_items (target c) (items c) v in
      (r.1, match r.2 with
            | Some x => <[target c := x]> body
            | None => body
            end)
  end.

(** The chains of a route run one after the other, each on the body that
    the chains before it have left. *)
Fixpoint run_chains `{Runtime} (cs : list chain) (body : obj)
  : list FieldError * obj :=
  match cs with
  | [] => ([], body)
  | c :: rest =>
      let r := run_chain c body in
      let r' := run_chains rest r.2 in
      (r.1 ++ r'.1, r'.2)
  end.

(** A route [router.method(path, [...chains, validate], handler)]: the
    errors of the chain of the id, if any, come first; the handler
    receives the body as the chains have left it. *)
Definition route `{Runtime} (id_errors : list FieldError) (cs : list chain)
    (handler : obj → Handler) (body : obj) : Handler :=
  validate (id_errors ++ (run_chains cs body).1)
    (handler (run_chains cs body).2).

End Validation.

(** ** What the three routers share *)

Module Routes.

(** [if (req.query.name)]: a query parameter is a string, truthy when it
    is present and not empty. *)
Definition given (q : option string) : bool :=
  match q with
  | Some s => negb (String.eqb s "")
  | None => false
  end.

(** [parseInt(req.query.page) || fallback] *)
Definition int_or `{Runtime} (q : option string) (fallback : Z) : Z :=
  match q ≫= parseInt with
  | Some n => if (n =? 0)%Z then fallback else n
  | None => fallback
  end.

(** [arr.filter(p)] where [p] may throw. *)
Fixpoint filter_throwing {A : Type} (p : A → outcome bool) (l : list A)
  : outcome (list A) :=
  match l with
  | [] => Returned []
  | x :: l' =>
      match p x with
      | Thrown => Thrown
      | Returned b =>
          match filter_throwing p l' with
          | Thrown => Thrown
          | Returned r => Returned (if b then x :: r else r)
          end
      end
  end.

Definition lift {A : Type} (o : outcome A) : M A := λ w, (o, w).

(** [record.name.toLowerCase().includes(req.query.name.toLowerCase())]:
    calling [toLowerCase] on anything but a string throws. *)
Definition name_includes `{Runtime} (name : string) (record : obj)
  : outcome bool :=
  match record !! "name" with
  | Some (VStr s) => Returned (Js.includes (toLowerCase s) (toLowerCase name))
  | _ => Thrown
  end.

(** The "Apply pagination" block, the same in the three list handlers. *)
Definition paginate `{Runtime} (query : gmap string string) (l : list obj)
  : response :=
  let page := int_or (query !! "page") 1 in
  let limit := int_or (query !! "limit") 10 in
  let startIndex := ((page - 1) * limit)%Z in
  let endIndex := (page * limit)%Z in
  let paginated := Js.slice l startIndex endIndex in
  let pagination :=
    {| page := page; limit := limit;
       total := Z.of_nat (length l);
       totalPages := Js.ceil_div (Z.of_nat (length l)) limit |} in
  {| status := 200; payload := ListJson paginated pagination |}.

(** [const x = ops.getById(req.params.id); if (!x) return 404; 200 data] *)
Definition get_by_id (c : DataStore.collection) (id : string)
    (missing failed : string) : Handler :=
  try_catch
    (found ← DataStore.getById c (Some (VStr id));
     match found with
     | None => respond_error 404 missing
     | Some r => mret {| status := 200; payload := DataJson (Some r) |}
     end)
    failed.

(** [const deleted = ops.delete(req.params.id); if (!deleted) return 404] *)
Definition delete_by_id (c : DataStore.collection) (id : string)
    (missing deleted failed : string) : Handler :=
  try_catch
    (done ← DataStore.delete c (Some (VStr id));
     if done : bool
     then mret {| status := 200; payload := MessageJson deleted |}
     else respond_error 404 missing)
    failed.

End Routes.

(** ** src/routes/users.js *)

Module UsersRouter.
Import DataStore Routes.

(** [GET /users] *)
Definition filtered `{Runtime} (query : gmap string string) : M (list obj) :=
  users ← getAll Users;
  users ← (if given (query !! "name")
           then lift (filter_throwing
                        (name_includes (default "" (query !! "name"))) users)
           else mret users);
  users ← (if given (query !! "email")
           then mret (List.filter
                        (λ user, Js.strict_eq (user !! "email")
                                   (VStr <$> query !! "email"))
                        users)
           else mret users);
  mret users.

Definition get_list `{Runtime} (query : gmap string string) : Handler :=
  try_catch (users ← filtered query; mret (paginate query users))
    "Failed to retrieve users".

(** [GET /users/:id] *)
Definition get (id : string) : Handler :=
  get_by_id Users id "User not found" "Failed to retrieve user".

(** [userOperations.getAll().find((user) => user.email === req.body.email)] *)
Definition same_email (body : obj) (user : obj) : bool :=
  Js.strict_eq (user !! "email") (body !! "email").

(** [POST /users] *)
Definition post (body : obj) : Handler :=
  try_catch
    (all ← getAll Users;
     match find (same_email body) all with
     | Some _ => respond_error 409 "User with this email already exists"
     | None =>
         newUser ← create Users body;
         mret {| status := 201;
                 payload := MessageDataJson "User created successfully"
                              (Some newUser) |}
     end)
    "Failed to create user".

(** [(user) => user.email === req.body.email && user.id !== req.params.id] *)
Definition email_of_other (id : string) (body : obj) (user : obj) : bool :=
  Js.strict_eq (user !! "email") (body !! "email")
  && negb (Js.strict_eq (user !! "id") (Some (VStr id))).

(** What [PUT] and [PATCH] share: when [changed] (the condition of the
    [if], which differs between the two), look for another user with the
    email of the request and answer 409 if there is one; then update. *)
Definition check_and_update (id : string) (body : obj) (changed : bool)
  : M response :=
  emailExists ← (if changed
                 then all ← getAll Users;
                      mret (find (email_of_other id body) all)
                 else mret None);
  match emailExists with
  | Some _ => respond_error 409 "User with this email already exists"
  | None =>
      updatedUser ← update Users (Some (VStr id)) body;
      mret {| status := 200;
              payload := MessageDataJson "User updated successfully"
                           updatedUser |}
  end.

(** [PUT /users/:id] *)
Definition put (id : string) (body : obj) : Handler :=
  try_catch
    (existingUser ← getById Users (Some (VStr id));
     match existingUser with
     | None => respond_error 404 "User not found"
     | Some existingUser =>
         check_and_update id body
           (negb (Js.strict_eq (existingUser !! "email") (body !! "email")))
     end)
    "Failed to update user".

(** [PATCH /users/:id] *)
Definition patch (id : string) (body : obj) : Handler :=
  try_catch
    (existingUser ← getById Users (Some (VStr id));
     match existingUser with
     | None => respond_error 404 "User not found"
     | Some existingUser =>
         check_and_update id body
           (Js.truthy (body !! "email")
            && negb (Js.strict_eq (existingUser !! "email") (body !! "email")))
     end)
    "Failed to update user".

(** [DELETE /users/:id] *)
Definition delete (id : string) : Handler :=
  delete_by_id Users id "User not found" "User deleted successfully"
    "Failed to delete user".

(** [.trim().isLength({ min: 2, max: 50 }).withMessage(...)] *)
Definition name_items `{Checks} : list Validation.item :=
  [ Validation.Sanitize (λ s, VStr (trim s));
    Validation.Check (isLength 2 50)
      "Name must be between 2 and 50 characters" ].

(** [.isEmail().normalizeEmail().withMessage(...)]: the message is the
    one of [isEmail], the validator before it. *)
Definition email_items `{Checks} : list Validation.item :=
  [ Validation.Check isEmail "Must be a valid email address";
    Validation.Sanitize normalizeEmail ].

(** [.isInt({ min: 18, max: 120 }).withMessage(...)] *)
Definition age_items `{Checks} : list Validation.item :=
  [ Validation.Check (isInt 18 120) "Age must be between 18 and 120" ].

(** The chains of [POST /users] (and of [PUT /users/:id]) *)
Definition post_chains `{Checks} : list Validation.chain :=
  [ {| Validation.target := "name"; Validation.optional := false;
       Validation.items := name_items |};
    {| Validation.target := "email"; Validation.optional := false;
       Validation.items := email_items |};
    {| Validation.target := "age"; Validation.optional := false;
       Validation.items := age_items |} ].

(** The chains of [PATCH /users/:id]: the same, each with [optional()] *)
Definition patch_chains `{Checks} : list Validation.chain :=
  [ {| Validation.target := "name"; Validation.optional := true;
       Validation.items := name_items |};
    {| Validation.target := "email"; Validation.optional := true;
       Validation.items := email_items |};
    {| Validation.target := "age"; Validation.optional := true;
       Validation.items := age_items |} ].

(** [POST /users], the route *)
Definition post_route `{Runtime} `{Checks} (body : obj) : Handler :=
  Validation.route [] post_chains post body.

(** [PATCH /users/:id], the route *)
Definition patch_route `{Runtime} `{Checks} (id : string) (body : obj)
  : Handler :=
  Validation.route (Validation.param_id_isUUID id "Invalid user ID format")
    patch_chains (patch id) body.

End UsersRouter.

(** ** src/routes/products.js *)

Module ProductsRouter.
Import DataStore Routes.

(** [GET /products] *)
Definition filtered `{Runtime} (query : gmap string string) : M (list obj) :=
  products ← getAll Products;
  products ← (if given (query !! "name")
              then lift (filter_throwing
                           (name_includes (default "" (query !! "name")))
                           products)
              else mret products);
  products ← (if given (query !! "category")
              then mret (List.filter
                           (λ product, Js.strict_eq (product !! "category")
                                         (VStr <$> query !! "category"))
                           products)
              else mret products);
  products ← (if given (query !! "minPrice")
              then mret (List.filter
                           (λ product,
                              PrimFloat.leb
                                (parseFloat (default "" (query !! "minPrice")))
                                (Js.ToNumber (product !! "price")))
                           products)
              else mret products);
  products ← (if given (query !! "maxPrice")
              then mret (List.filter
                           (λ product,
                              PrimFloat.leb
                                (Js.ToNumber (product !! "price"))
                                (parseFloat (default "" (query !! "maxPrice"))))
                           products)
              else mret products);
  products ← (match query !! "inStock" with
              | Some s =>
                  let inStock := String.eqb s "true" in
                  mret (List.filter
                          (λ product, Js.strict_eq (product !! "inStock")
                                        (Some (VBool inStock)))
                          products)
              | None => mret products
              end);
  mret products.

Definition get_list `{Runtime} (query : gmap string string) : Handler :=
  try_catch (products ← filtered query; mret (paginate query products))
    "Failed to retrieve products".

(** [GET /products/:id] *)
Definition get (id : string) : Handler :=
  get_by_id Products id "Product not found" "Failed to retrieve product".

(** [POST /products] *)
Definition post (body : obj) : Handler :=
  try_catch
    (newProduct ← create Products body;
     mret {| status := 201;
             payload := MessageDataJson "Product created successfully"
                          (Some newProduct) |})
    "Failed to create product".

(** [PUT /products/:id] and [PATCH /products/:id]: the same handler *)
Definition put (id : string) (body : obj) : Handler :=
  try_catch
    (existingProduct ← getById Products (Some (VStr id));
     match existingProduct with
     | None => respond_error 404 "Product not found"
     | Some _ =>
         updatedProduct ← update Products (Some (VStr id)) body;
         mret {| status := 200;
                 payload := MessageDataJson "Product updated successfully"
                              updatedProduct |}
     end)
    "Failed to update product".

Definition patch (id : string) (body : obj) : Handler := put id body.

(** [DELETE /products/:id] *)
Definition delete (id : string) : Handler :=
  delete_by_id Products id "Product not found" "Product deleted successfully"
    "Failed to delete product".

(** [["electronics", "clothing", "books", "home"]] *)
Definition categories : list string :=
  ["electronics"; "clothing"; "books"; "home"].

(** The chains of [POST /products] *)
Definition post_chains `{Checks} : list Validation.chain :=
  [ {| Validation.target := "name"; Validation.optional := false;
       Validation.items :=
         [ Validation.Sanitize (λ s, VStr (trim s));
           Validation.Check (isLength 1 100)
             "Name must be between 1 and 100 characters" ] |};
    {| Validation.target := "description"; Validation.optional := true;
       Validation.items :=
         [ Validation.Sanitize (λ s, VStr (trim s));
           Validation.Check (isLength 0 500)
             "Description must not exceed 500 characters" ] |};
    {| Validation.target := "price"; Validation.optional := false;
       Validation.items :=
         [ Validation.Check (isFloat 0)
             "Price must be a non-negative number" ] |};
    {| Validation.target := "category"; Validation.optional := false;
       Validation.items :=
         [ Validation.Check (λ s, bool_decide (s ∈ categories))
             "Category must be one of: electronics, clothing, books, home" ] |};
    {| Validation.target := "inStock"; Validation.optional := true;
       Validation.items :=
         [ Validation.Check isBoolean "inStock must be a boolean value" ] |} ].

(** [POST /products], the route *)
Definition post_route `{Runtime} `{Checks} (body : obj) : Handler :=
  Validation.route [] post_chains post body.

End ProductsRouter.

(** ** routes/orders.js (src/unnamed/part_002) *)

Module OrdersRouter.
Import DataStore Routes.

(** [GET /orders] *)
Definition filtered `{Runtime} (query : gmap string string) : M (list obj) :=
  orders ← getAll Orders;
  orders ← (if given (query !! "userId")
            then mret (List.filter
                         (λ order, Js.strict_eq (order !! "userId")
                                     (VStr <$> query !! "userId"))
                         orders)
            else mret orders);
  orders ← (if given (query !! "status")
            then mret (List.filter
                         (λ order, Js.strict_eq (order !! "status")
                                     (VStr <$> query !! "status"))
                         orders)
            else mret orders);
  orders ← (if given (query !! "minAmount")
            then mret (List.filter
                         (λ order,
                            PrimFloat.leb
                              (parseFloat (default "" (query !! "minAmount")))
                              (Js.ToNumber (order !! "totalAmount")))
                         orders)
            else mret orders);
  orders ← (if given (query !! "maxAmount")
            then mret (List.filter
                         (λ order,
                            PrimFloat.leb
                              (Js.ToNumber (order !! "totalAmount"))
                              (parseFloat (default "" (query !! "maxAmount"))))
                         orders)
            else mret orders);
  mret orders.

Definition get_list `{Runtime} (query : gmap string string) : Handler :=
  try_catch (orders ← filtered query; mret (paginate query orders))
    "Failed to retrieve orders".

(** [GET /orders/:id] *)
Definition get (id : string) : Handler :=
  get_by_id Orders id "Order not found" "Failed to retrieve order".

(** [for (const productItem of req.body.products)]: an array gives its
    elements, a string its characters, anything else is not iterable. *)
Definition iterate (v : option value) : M (list value) :=
  match v with
  | Some (VArr l) => mret l
  | Some (VStr s) => mret ((λ c, VStr (String c EmptyString)) <$> String.list_ascii_of_string s)
  | _ => throw
  end.

(** [productItem.name]: reading a property of [null] throws, a value
    that is not an object has none of the properties read here. *)
Definition prop (v : value) (name : string) : M (option value) :=
  match v with
  | VNull => throw
  | VObj o => mret (o !! name)
  | _ => mret None
  end.

(** An object literal; a property whose value is [undefined] is left out. *)
Definition literal (l : list (string * option value)) : obj :=
  foldr (λ kv o, match kv.2 with Some v => <[kv.1 := v]> o | None => o end)
    ∅ l.

(** The body of the loop of [POST /orders], on the items still to visit:
    either a response was sent, or the loop ends with [totalAmount] and
    [validatedProducts]. *)
Fixpoint validate_products `{Runtime} (items : list value) (totalAmount : float)
    (validatedProducts : list value) : M (response + float * list value) :=
  match items with
  | [] => mret (inr (totalAmount, validatedProducts))
  | productItem :: rest =>
      productId ← prop productItem "productId";
      product ← getById Products productId;
      match product with
      | None =>
          r ← respond_error 404
                ("Product with ID " +:+ Js.ToString productId +:+ " not found");
          mret (inl r)
      | Some product =>
          if negb (Js.truthy (product !! "inStock")) then
            r ← respond_error 400
                  ("Product " +:+ Js.ToString (product !! "name")
                   +:+ " is out of stock");
            mret (inl r)
          else
            quantity ← prop productItem "quantity";
            let itemTotal :=
              (Js.ToNumber (product !! "price") * Js.ToNumber quantity)%float in
            validate_products rest (totalAmount + itemTotal)%float
              (validatedProducts ++
                 [ VObj (literal [ ("productId", productId);
                                   ("quantity", quantity);
                                   ("price", product !! "price") ]) ])
      end
  end.

(** [POST /orders] *)
Definition post `{Runtime} (body : obj) : Handler :=
  try_catch
    (user ← getById Users (body !! "userId");
     match user with
     | None => respond_error 404 "User not found"
     | Some _ =>
         items ← iterate (body !! "products");
         checked ← validate_products items 0%float [];
         match checked with
         | inl r => mret r
         | inr (totalAmount, validatedProducts) =>
             let orderData :=
               literal [ ("userId", body !! "userId");
                         ("products", Some (VArr validatedProducts));
                         ("totalAmount", Some (VNum totalAmount));
                         ("status", Some (VStr "pending")) ] in
             newOrder ← create Orders orderData;
             mret {| status := 201;
                     payload := MessageDataJson "Order created successfully"
                                  (Some newOrder) |}
         end
     end)
    "Failed to create order".

(** The loop of [PUT /orders/:id]: the response sent for the first item
    whose product is missing, if any. *)
Fixpoint products_exist `{Runtime} (items : list value) : M (option response) :=
  match items with
  | [] => mret None
  | productItem :: rest =>
      productId ← prop productItem "productId";
      product ← getById Products productId;
      match product with
      | None =>
          r ← respond_error 404
                ("Product with ID " +:+ Js.ToString productId +:+ " not found");
          mret (Some r)
      | Some _ => products_exist rest
      end
  end.

(** [PUT /orders/:id] *)
Definition put `{Runtime} (id : string) (body : obj) : Handler :=
  try_catch
    (existingOrder ← getById Orders (Some (VStr id));
     match existingOrder with
     | None => respond_error 404 "Order not found"
     | Some _ =>
         user ← getById Users (body !! "userId");
         match user with
         | None => respond_error 404 "User not found"
         | Some _ =>
             items ← iterate (body !! "products");
             missing ← products_exist items;
             match missing with
             | Some r => mret r
             | None =>
                 updatedOrder ← update Orders (Some (VStr id)) body;
                 mret {| status := 200;
                         payload := MessageDataJson "Order updated successfully"
                                      updatedOrder |}
             end
         end
     end)
    "Failed to update order".

(** [PATCH /orders/:id], the handler *)
Definition patch (id : string) (body : obj) : Handler :=
  try_catch
    (existingOrder ← getById Orders (Some (VStr id));
     match existingOrder with
     | None => respond_error 404 "Order not found"
     | Some _ =>
         updatedOrder ← update Orders (Some (VStr id)) body;
         mret {| status := 200;
                 payload := MessageDataJson "Order updated successfully"
                              updatedOrder |}
     end)
    "Failed to update order".

(** [["pending", "processing", "shipped", "delivered", "cancelled"]] *)
Definition statuses : list string :=
  ["pending"; "processing"; "shipped"; "delivered"; "cancelled"].

(** [PATCH /orders/:id], the route: the two validation chains, [validate],
    then the handler. *)
Definition patch_route `{Runtime} (id : string) (body : obj) : Handler :=
  Validation.validate
    (Validation.param_id_isUUID id "Invalid order ID format"
     ++ Validation.body_optional_isIn body "status" statuses "Invalid status")
    (patch id body).

(** [DELETE /orders/:id] *)
Definition delete (id : string) : Handler :=
  delete_by_id Orders id "Order not found" "Order deleted successfully"
    "Failed to delete order".

End OrdersRouter.

(** ** Vocabulary of the specification *)

Module OrderRule.
Import DataStore.

(** A line item of a request or of a stored order is an object. *)
Definition is_object (v : value) : Prop := ∃ o, v = VObj o.

(** [line.name] of a line item. *)
Definition attribute (line : value) (name : string) : option value :=
  match line with
  | VObj o => o !! name
  | _ => None
  end.

(** The product a line item refers to, in the product collection [ps]. *)
Definition product_of (ps : list obj) (item : value) : option obj :=
  find (has_id (attribute item "productId")) ps.

Definition missing (ps : list obj) (item : value) : Prop :=
  product_of ps item = None.

(** The product exists and can be ordered. *)
Definition available (ps : list obj) (item : value) : Prop :=
  ∃ product, product_of ps item = Some product
             ∧ Js.truthy (product !! "inStock") = true.


(** The snapshot [{productId, quantity, price}] of a line item, its price
    being the one the product collection holds. *)
Definition snapshot (ps : list obj) (item : value) : value :=
  VObj (OrdersRouter.literal
          [ ("productId", attribute item "productId");
            ("quantity", attribute item "quantity");
            ("price", product_of ps item ≫= (.!! "price")) ]).

(** price × quantity of a stored line *)
Definition line_amount `{Runtime} (line : value) : float :=
  (Js.ToNumber (attribute line "price") * Js.ToNumber (attribute line "quantity"))%float.

(** The sum over the lines of price × quantity, added up from the first
    line on, starting from [start]. *)
Definition total_from `{Runtime} (start : float) (lines : list value) : float :=
  fold_left (λ acc line, (acc + line_amount line)%float) lines start.

Definition order_total `{Runtime} (lines : list value) : float :=
  total_from 0%float lines.

(** The [orderData] of [POST /orders] for the stored lines [lines]. *)
Definition order_data `{Runtime} (body : obj) (lines : list value) : obj :=
  OrdersRouter.literal
    [ ("userId", body !! "userId");
      ("products", Some (VArr lines));
      ("totalAmount", Some (VNum (order_total lines)));
      ("status", Some (VStr "pending")) ].

End OrderRule.

Module Listing.

(** What the validation chain of a list route guarantees of [page]:
    absent, or an integer that is at least 1. *)
Definition valid_page `{Runtime} (q : option string) : Prop :=
  match q with
  | None => True
  | Some s => ∃ n, parseInt s = Some n ∧ (1 ≤ n)%Z
  end.

(** ... and of [limit]: absent, or an integer between 1 and 100. *)
Definition valid_limit `{Runtime} (q : option string) : Prop :=
  match q with
  | None => True
  | Some s => ∃ n, parseInt s = Some n ∧ (1 ≤ n ≤ 100)%Z
  end.


(** The [data] of a list response. *)
Definition data_of (r : response) : list obj :=
  match payload r with
  | ListJson data _ => data
  | _ => []
  end.


End Listing.

Module UserRule.

(** The email of a user, when it is a string. *)
Definition email (user : obj) : option string :=
  match user !! "email" with
  | Some (VStr e) => Some e
  | _ => None
  end.

(** The id of a record, when it is a string. *)
Definition ident (r : obj) : option string :=
  match r !! "id" with
  | Some (VStr i) => Some i
  | _ => None
  end.

(** No two users share an email. *)
Definition emails_unique (l : list obj) : Prop := NoDup (omap email l).

(** No two records share an id. *)
Definition ids_unique (l : list obj) : Prop := NoDup (omap ident l).

End UserRule.

Module RoundTrip.

(** What a record made by [create] from [data] in the state [w] holds: the
    generated id, the two clock readings, and the other fields of [data]. *)
Definition stamped (r data : obj) (w : World) : Prop :=
  r !! "id" = Some (VStr (uuid_source w (uuid_calls w)))
  ∧ r !! "createdAt" = Some (VStr (clock_source w (clock_calls w)))
  ∧ r !! "updatedAt" = Some (VStr (clock_source w (S (clock_calls w))))
  ∧ ∀ name, name ≠ "id" → name ≠ "createdAt" → name ≠ "updatedAt" →
            r !! name = data !! name.

End RoundTrip.

(** ** The routes that take an id: validation chain, [validate], handler *)

Module IdRoutes.

(** [router.get("/:id", [param("id").isUUID().withMessage(msg), validate],
    handler)] and [router.delete] likewise, in the three routers. *)
Definition users_get `{Runtime} (id : string) : Handler :=
  Validation.validate
    (Validation.param_id_isUUID id "Invalid user ID format")
    (UsersRouter.get id).

Definition users_delete `{Runtime} (id : string) : Handler :=
  Validation.validate
    (Validation.param_id_isUUID id "Invalid user ID format")
    (UsersRouter.delete id).

Definition products_get `{Runtime} (id : string) : Handler :=
  Validation.validate
    (Validation.param_id_isUUID id "Invalid product ID format")
    (ProductsRouter.get id).

Definition products_delete `{Runtime} (id : string) : Handler :=
  Validation.validate
    (Validation.param_id_isUUID id "Invalid product ID format")
    (ProductsRouter.delete id).

Definition orders_get `{Runtime} (id : string) : Handler :=
  Validation.validate
    (Validation.param_id_isUUID id "Invalid order ID format")
    (OrdersRouter.get id).

Definition orders_delete `{Runtime} (id : string) : Handler :=
  Validation.validate
    (Validation.param_id_isUUID id "Invalid order ID format")
    (OrdersRouter.delete id).

End IdRoutes.

(** ** middleware/notFound.js (src/middleware/notFound.js, lines 1-11) and
    middleware/errorHandler.js (src/unnamed/part_000, lines 1-88) *)

Module Middleware.

(** What the two middlewares read of the request. *)
Record Request : Type := {
  originalUrl : string;
  method : string
}.

(** [Object.values(o)] lists the values of an object in the order its
    properties were inserted, which a finite map does not record: it is
    taken from the engine. *)
Class Engine : Type := {
  objectValues : obj → list value
}.

(** What [res.status(statusCode).json({ error: true, message, statusCode,
    timestamp, path, method, ...stack })] sends.  [statusCode] and
    [message] are whatever the error carries; [stack] is [None] when the
    property is not in the body. *)
Record Reply : Type := {
  statusCode : value;
  message : value;
  timestamp : string;
  path : string;
  verb : string;
  stack : option value
}.

(** [notFound]: the error handed to [next], an [Error] (whose [name] is
    "Error") with the message of the route, [statusCode] 404 and the stack
    [trace] that the engine recorded. *)
Definition notFound (req : Request) (trace : string) : obj :=
  {[ "name" := VStr "Error";
     "message" := VStr ("Route " +:+ originalUrl req +:+ " not found");
     "statusCode" := VNum 404;
     "stack" := VStr trace ]}.

(** [{ message, statusCode }] *)
Definition override (msg : string) (code : float) : obj :=
  {[ "message" := VStr msg; "statusCode" := VNum code ]}.

(** [Object.values(err.errors)] *)
Definition values_of `{Engine} (v : option value) : outcome (list value) :=
  match v with
  | None => Thrown
  | Some VNull => Thrown
  | Some (VArr l) => Returned l
  | Some (VObj o) => Returned (objectValues o)
  | Some (VStr s) =>
      Returned ((λ c, VStr (String c EmptyString)) <$> String.list_ascii_of_string s)
  | Some _ => Returned []
  end.

(** [val.message], for the [map] over the values: reading a property of
    [null] throws. *)
Definition message_of (v : value) : outcome (option value) :=
  match v with
  | VNull => Thrown
  | VObj o => Returned (o !! "message")
  | _ => Returned None
  end.

Fixpoint messages_of (l : list value) : outcome (list (option value)) :=
  match l with
  | [] => Returned []
  | v :: l' =>
      match message_of v with
      | Thrown => Thrown
      | Returned m =>
          match messages_of l' with
          | Thrown => Thrown
          | Returned ms => Returned (m :: ms)
          end
      end
  end.

(** [arr.join(", ")]: [undefined] and [null] give the empty string. *)
Definition join_item `{Runtime} (v : option value) : string :=
  match v with
  | None => ""
  | Some VNull => ""
  | _ => Js.ToString v
  end.

Fixpoint join `{Runtime} (l : list (option value)) : string :=
  match l with
  | [] => ""
  | [v] => join_item v
  | v :: l' => join_item v +:+ ", " +:+ join l'
  end.

(** The six [if] of [errorHandler], one after the other: each replaces
    [error] when its test holds. *)
Definition classify `{Runtime} `{Engine} (err : obj) (error : obj)
  : outcome obj :=
  let error :=
    if Js.strict_eq (err !! "name") (Some (VStr "CastError"))
    then override "Resource not found" 404 else error in
  let error :=
    if Js.strict_eq (err !! "code") (Some (VNum 11000))
    then override "Duplicate field value entered" 400 else error in
  match
    (if Js.strict_eq (err !! "name") (Some (VStr "ValidationError"))
     then match values_of (err !! "errors") with
          | Thrown => Thrown
          | Returned vals =>
              match messages_of vals with
              | Thrown => Thrown
              | Returned ms =>
                  Returned {[ "message" := VStr (join ms);
                              "statusCode" := VNum 400 ]}
              end
          end
     else Returned error)
  with
  | Thrown => Thrown
  | Returned error =>
      let error :=
        if Js.strict_eq (err !! "name") (Some (VStr "JsonWebTokenError"))
        then override "Invalid token" 401 else error in
      let error :=
        if Js.strict_eq (err !! "name") (Some (VStr "TokenExpiredError"))
        then override "Token expired" 401 else error in
      let error :=
        if Js.strict_eq (err !! "type") (Some (VStr "entity.parse.failed"))
        then override "Invalid JSON format" 400 else error in
      Returned error
  end.

(** Whether one of the six tests holds of [err]. *)
Definition recognised (err : obj) : bool :=
  Js.strict_eq (err !! "name") (Some (VStr "CastError"))
  || Js.strict_eq (err !! "code") (Some (VNum 11000))
  || Js.strict_eq (err !! "name") (Some (VStr "ValidationError"))
  || Js.strict_eq (err !! "name") (Some (VStr "JsonWebTokenError"))
  || Js.strict_eq (err !! "name") (Some (VStr "TokenExpiredError"))
  || Js.strict_eq (err !! "type") (Some (VStr "entity.parse.failed")).

(** [x || fallback] *)
Definition or_else (v : option value) (fallback : value) : value :=
  match v with
  | Some x => if Js.truthy v then x else fallback
  | None => fallback
  end.

(** [errorHandler(err, req, res, next)].  [development] is
    [process.env.NODE_ENV === "development"].  The clock is read once for
    the log entry and once for the body. *)
Definition errorHandler `{Runtime} `{Engine} (development : bool)
    (err : obj) (req : Request) : M Reply :=
  let error := match err !! "message" with
               | Some m => <["message" := m]> err
               | None => delete "message" err
               end in
  _ ← now;
  error ← Routes.lift (classify err error);
  let statusCode := or_else (error !! "statusCode") (VNum 500) in
  let message := or_else (error !! "message") (VStr "Internal Server Error") in
  timestamp ← now;
  mret {| statusCode := statusCode;
          message := message;
          timestamp := timestamp;
          path := originalUrl req;
          verb := method req;
          stack := if development then err !! "stack" else None |}.

(** [app.use(notFound); app.use(errorHandler)]: a request that no route
    has answered. *)
Definition unmatched `{Runtime} `{Engine} (development : bool)
    (req : Request) (trace : string) : M Reply :=
  errorHandler development (notFound req trace) req.

End Middleware.

(** ** More vocabulary: what the filters of the list routes keep *)

Module Filters.






(** The number of records of a collection that carry the id. *)
Definition carriers (id : string) (l : list obj) : nat :=
  length (List.filter (DataStore.has_id (Some (VStr id))) l).

End Filters.

(** ** More vocabulary: what a computation may write *)

Module Effects.

(** Two stores that differ at most in the collection [c]. *)
Definition same_outside (c : DataStore.collection) (s s' : Store) : Prop :=
  ∀ c', c' ≠ c → DataStore.rows c' s' = DataStore.rows c' s.

(** Every run of [m] leaves the store related by [R] to the store it
    started from. *)
Definition within {A : Type} (R : Store → Store → Prop) (m : M A) : Prop :=
  ∀ w, R (store w) (store (m w).2).

(** The same for a handler. *)
Definition handles_within (R : Store → Store → Prop) (h : Handler) : Prop :=
  ∀ w, R (store w) (store (h w).2).

End Effects.

(** ** A concrete runtime and a concrete state, for the examples *)

Module Sample.

Definition digit (c : Ascii.ascii) : option Z :=
  let n := Z.of_N (Ascii.N_of_ascii c) in
  if ((48 <=? n) && (n <=? 57))%Z then Some (n - 48)%Z else None.

Fixpoint digits (s : string) (acc : Z) : option Z :=
  match s with
  | EmptyString => Some acc
  | String c s' =>
      match digit c with
      | Some d => digits s' (10 * acc + d)%Z
      | None => None
      end
  end.

(** [parseInt] on a string of decimal digits. *)
Definition decimal (s : string) : option Z :=
  match s with
  | EmptyString => None
  | _ => digits s 0
  end.

Definition lower (c : Ascii.ascii) : Ascii.ascii :=
  let n := Ascii.N_of_ascii c in
  if ((65 <=? n) && (n <=? 90))%N then Ascii.ascii_of_N (n + 32) else c.

Fixpoint lowercase (s : string) : string :=
  match s with
  | EmptyString => EmptyString
  | String c s' => String (lower c) (lowercase s')
  end.

Definition hex (c : Ascii.ascii) : bool :=
  let n := Ascii.N_of_ascii c in
  ((48 <=? n) && (n <=? 57) || (65 <=? n) && (n <=? 70)
   || (97 <=? n) && (n <=? 102))%N.

(** 8-4-4-4-12 hexadecimal digits. *)
Fixpoint shaped (groups : list nat) (left : nat) (s : string) : bool :=
  match s, left with
  | EmptyString, O => match groups with [] => true | _ => false end
  | String c s', O =>
      match groups with
      | g :: groups' => (Ascii.N_of_ascii c =? 45)%N && shaped groups' g s'
      | [] => false
      end
  | String c s', S left' => hex c && shaped groups left' s'
  | EmptyString, S _ => false
  end.

Definition uuid_shaped (s : string) : bool := shaped [4; 4; 4; 12]%nat 8 s.

(** The whole numbers as doubles, and their decimal writing. *)
Fixpoint whole (n : nat) : float :=
  match n with
  | O => 0%float
  | S k => (whole k + 1)%float
  end.

Definition figure (d : nat) : string :=
  String (Ascii.ascii_of_nat (48 + d)) EmptyString.

Fixpoint written (fuel n : nat) : string :=
  match fuel with
  | O => EmptyString
  | S fuel' =>
      if (n <? 10)%nat then figure n
      else written fuel' (n / 10) +:+ figure (n mod 10)
  end.

(** The string that the validators are given for a value that is not a
    string, as far as the examples go: the whole numbers up to 200, the
    booleans and [null]. *)
Definition string_of (v : value) : string :=
  match v with
  | VNum f =>
      match find (λ n, PrimFloat.eqb f (whole n)) (seq 0 201) with
      | Some n => written 3 n
      | None => "NaN"
      end
  | VBool true => "true"
  | VBool false => "false"
  | VNull => ""
  | _ => "[object Object]"
  end.

Definition runtime : Runtime :=
  {| parseInt := decimal;
     parseFloat := λ _, nan;
     toLowerCase := lowercase;
     ToNumberOther := λ _, nan;
     ToStringOther := λ _, "[object Object]";
     isUUID := uuid_shaped;
     validatorString := string_of |}.

(** White space at both ends removed. *)
Definition blank (c : Ascii.ascii) : bool :=
  let n := Ascii.N_of_ascii c in
  ((n =? 32) || (9 <=? n) && (n <=? 13))%N.

Fixpoint unled (l : list Ascii.ascii) : list Ascii.ascii :=
  match l with
  | c :: l' => if blank c then unled l' else l
  | [] => []
  end.

Definition stripped (s : string) : string :=
  String.string_of_list_ascii
    (rev (unled (rev (unled (String.list_ascii_of_string s))))).

(** One [@] with something before it, and after it a domain with a dot
    and no blank. *)
Definition at_sign (c : Ascii.ascii) : bool := (Ascii.N_of_ascii c =? 64)%N.

Definition dot (c : Ascii.ascii) : bool := (Ascii.N_of_ascii c =? 46)%N.

Fixpoint address_shaped (seen : nat) (l : list Ascii.ascii) : bool :=
  match l with
  | [] => false
  | c :: l' =>
      if at_sign c
      then (0 <? seen)%nat && existsb dot l'
           && negb (existsb at_sign l') && negb (existsb blank l')
           && (0 <? length l')%nat
      else negb (blank c) && address_shaped (S seen) l'
  end.

Definition between (min max : Z) (s : string) : bool :=
  match decimal s with
  | Some n => ((min <=? n) && (n <=? max))%Z
  | None => false
  end.

(** validator.js as far as the examples go: addresses whose domain has no
    rule of its own in [normalizeEmail], which puts them in lower case;
    numbers written with decimal digits only. *)
Definition checks : Checks :=
  {| trim := stripped;
     normalizeEmail := λ s, VStr (lowercase s);
     isEmail := λ s, address_shaped 0 (String.list_ascii_of_string s);
     isLength := λ min max s,
       ((min <=? Z.of_nat (String.length s))
        && (Z.of_nat (String.length s) <=? max))%Z;
     isInt := between;
     isFloat := λ min s,
       match decimal s with
       | Some n => (min <=? n)%Z
       | None => false
       end;
     isBoolean := λ s, bool_decide (s ∈ ["true"; "false"; "1"; "0"]) |}.

Definition uuids (n : nat) : string :=
  match n with
  | 0%nat => "880e8400-e29b-41d4-a716-446655440000"
  | 1%nat => "880e8400-e29b-41d4-a716-446655440001"
  | _ => "880e8400-e29b-41d4-a716-446655440002"
  end.

(** A clock that advances by one millisecond at every reading. *)
Definition ticks (n : nat) : string :=
  match n with
  | 0%nat => "2024-02-01T09:00:00.000Z"
  | 1%nat => "2024-02-01T09:00:00.001Z"
  | 2%nat => "2024-02-01T09:00:00.002Z"
  | 3%nat => "2024-02-01T09:00:00.003Z"
  | 4%nat => "2024-02-01T09:00:00.004Z"
  | _ => "2024-02-01T09:00:00.005Z"
  end.

Definition world_of (s : Store) : World :=
  {| store := s; uuid_source := uuids; uuid_calls := 0;
     clock_source := ticks; clock_calls := 0 |}.

(** The state of the server when it starts. *)
Definition world : World := world_of DataStore.seed.

Definition john : string := "550e8400-e29b-41d4-a716-446655440000".
Definition jane : string := "550e8400-e29b-41d4-a716-446655440001".
Definition iphone : string := "660e8400-e29b-41d4-a716-446655440000".
Definition macbook : string := "660e8400-e29b-41d4-a716-446655440001".
Definition first_order : string := "770e8400-e29b-41d4-a716-446655440000".

(** A second product collection: prices 10, 5 and 3, the last one out of
    stock. *)
Definition pen : string := "660e8400-e29b-41d4-a716-446655440010".
Definition pad : string := "660e8400-e29b-41d4-a716-446655440011".
Definition ink : string := "660e8400-e29b-41d4-a716-446655440012".

Definition a_pen : obj :=
  {[ "id" := VStr pen; "name" := VStr "Pen"; "price" := VNum 10;
     "category" := VStr "home"; "inStock" := VBool true;
     "createdAt" := VStr "2024-01-20T08:00:00.000Z";
     "updatedAt" := VStr "2024-01-20T08:00:00.000Z" ]}.

Definition a_pad : obj :=
  {[ "id" := VStr pad; "name" := VStr "Pad"; "price" := VNum 5;
     "category" := VStr "home"; "inStock" := VBool true;
     "createdAt" := VStr "2024-01-20T08:00:00.000Z";
     "updatedAt" := VStr "2024-01-20T08:00:00.000Z" ]}.

Definition some_ink : obj :=
  {[ "id" := VStr ink; "name" := VStr "Ink"; "price" := VNum 3;
     "category" := VStr "home"; "inStock" := VBool false;
     "createdAt" := VStr "2024-01-20T08:00:00.000Z";
     "updatedAt" := VStr "2024-01-20T08:00:00.000Z" ]}.

Definition stationery_products : list obj := [ a_pen; a_pad; some_ink ].

Definition stationery : World :=
  world_of {| users := DataStore.seed_users;
              products := stationery_products;
              orders := DataStore.seed_orders |}.

(** Two pens and three pads, for John. *)
Definition pens_and_pads : list value :=
  [ VObj {[ "productId" := VStr pen; "quantity" := VNum 2 ]};
    VObj {[ "productId" := VStr pad; "quantity" := VNum 3 ]} ].

Definition order_request : obj :=
  {[ "userId" := VStr john; "products" := VArr pens_and_pads ]}.

(** The same order, the request also giving a price of its own for each
    line. *)
Definition priced_lines : list value :=
  [ VObj {[ "productId" := VStr pen; "quantity" := VNum 2; "price" := VNum 1 ]};
    VObj {[ "productId" := VStr pad; "quantity" := VNum 3; "price" := VNum 1 ]} ].

Definition priced_request : obj :=
  {[ "userId" := VStr john; "products" := VArr priced_lines ]}.

(** The same lines for a user nobody knows. *)
Definition stranger : string := "550e8400-e29b-41d4-a716-446655449999".






(** A new user. *)
Definition eve : obj :=
  {[ "name" := VStr "Eve Adams"; "email" := VStr "eve@example.com";
     "age" := VNum 28 ]}.

(** The same, with John's id in the body. *)
Definition eve_as_john : obj := <["id" := VStr john]> eve.

(** A second John: same email, the rest differs. *)
Definition second_john : obj :=
  {[ "name" := VStr "Johnny"; "email" := VStr "john.doe@example.com";
     "age" := VNum 61 ]}.

Definition elsewhere : string := "990e8400-e29b-41d4-a716-446655440000".

End Sample.
(** ** A concrete engine, and more values for the examples *)

Module Cases.

(** An engine whose objects list their values in the order of their
    keys. *)
Definition engine : Middleware.Engine :=
  {| Middleware.objectValues := λ o, (map_to_list o).*2 |}.



(** A request for a route that does not exist. *)
Definition nowhere : Middleware.Request :=
  {| Middleware.originalUrl := "/api/v1/carts"; Middleware.method := "GET" |}.

(** An error that a handler might pass on: a message and nothing else. *)
Definition boom : obj := {[ "message" := VStr "boom" ]}.

(** The error of the body parser for a body that is not JSON. *)
Definition bad_json : obj :=
  {[ "name" := VStr "SyntaxError";
     "message" := VStr "Unexpected end of JSON input";
     "type" := VStr "entity.parse.failed";
     "statusCode" := VNum 400 ]}.

(** A validation error that lists no errors. *)
Definition bare_validation_error : obj :=
  {[ "name" := VStr "ValidationError";
     "message" := VStr "Validation failed" ]}.

(** A new name, and nothing else. *)
Definition renamed : obj := {[ "name" := VStr "John D." ]}.

(** A new user who writes John's address with capitals. *)
Definition capital_john : obj :=
  {[ "name" := VStr "John Again"; "email" := VStr "John.Doe@Example.com";
     "age" := VNum 61 ]}.

(** Eve, with a blank before her name and capitals in her address. *)
Definition spaced_eve : obj :=
  {[ "name" := VStr " Eve Adams"; "email" := VStr "Eve@Example.com";
     "age" := VNum 28 ]}.


End Cases.

(** * Properties *)

Import DataStore OrderRule Listing UserRule RoundTrip.

(** ** Facts about the store operations *)

Section StoreFacts.
Context {A : Type} (p : A → bool).

Lemma findIndex_None (l : list A) :
  Js.findIndex p l = None ↔ find p l = None.
Proof.
  induction l as [|x l IH]; simpl; [done|].
  destruct (p x); [split; discriminate|].
  rewrite <- IH. destruct (Js.findIndex p l); simpl; split; congruence.
Qed.

Lemma findIndex_Some (l : list A) (i : nat) :
  Js.findIndex p l = Some i →
  ∃ x, l !! i = Some x ∧ find p l = Some x ∧ p x = true
       ∧ ∀ j y, (j < i)%nat → l !! j = Some y → p y = false.
Proof.
  revert i. induction l as [|x l IH]; intros i; simpl; [discriminate|].
  destruct (p x) eqn:Hx.
  - intros [= <-]. exists x. repeat split; auto. intros j y Hj. lia.
  - destruct (Js.findIndex p l) as [k|]; simpl; [|discriminate].
    intros [= <-]. destruct (IH k eq_refl) as (y & Hy & Hf & Hp & Hlt).
    exists y. repeat split; auto.
    intros [|j] z Hj; simpl; [congruence|]. apply Hlt. lia.
Qed.

Lemma find_findIndex (l : list A) (x : A) :
  find p l = Some x → ∃ i, Js.findIndex p l = Some i ∧ l !! i = Some x.
Proof.
  intros Hf. destruct (Js.findIndex p l) as [i|] eqn:Hi.
  - destruct (findIndex_Some l i Hi) as (y & Hy & Hf' & _).
    exists i. split; congruence.
  - apply findIndex_None in Hi. congruence.
Qed.

Lemma find_None_Forall (l : list A) :
  find p l = None ↔ Forall (λ x, p x = false) l.
Proof.
  induction l as [|x l IH]; simpl.
  - split; auto.
  - destruct (p x) eqn:Hx.
    + split; [discriminate|]. intros H. inversion H. congruence.
    + rewrite IH. split; [by constructor|]. intros H. by inversion H.
Qed.

Lemma find_Some_elem (l : list A) (x : A) :
  find p l = Some x → x ∈ l ∧ p x = true.
Proof.
  induction l as [|y l IH]; simpl; [discriminate|].
  destruct (p y) eqn:Hy.
  - intros [= <-]. split; [left|done].
  - intros H. destruct (IH H). split; [by right|done].
Qed.

End StoreFacts.

Lemma strict_eq_str (a : option value) (s : string) :
  Js.strict_eq a (Some (VStr s)) = true ↔ a = Some (VStr s).
Proof.
  destruct a as [[]|]; simpl; try (split; [discriminate|congruence]).
  rewrite String.eqb_eq. split; congruence.
Qed.

Lemma getById_run c id w :
  getById c id w = (Returned (find (has_id id) (rows c (store w))), w).
Proof. reflexivity. Qed.

Lemma create_run c data w :
  create c data w =
  (Returned (new_record (uuid_source w (uuid_calls w)) data
               (clock_source w (clock_calls w))
               (clock_source w (S (clock_calls w)))),
   created c (new_record (uuid_source w (uuid_calls w)) data
                (clock_source w (clock_calls w))
                (clock_source w (S (clock_calls w)))) w).
Proof. reflexivity. Qed.

Lemma update_run c id data w :
  update c id data w =
  match Js.findIndex (has_id id) (rows c (store w)) with
  | None => (Returned None, w)
  | Some i =>
      match rows c (store w) !! i with
      | None => (Returned None, w)
      | Some old =>
          let merged := merged_record old data (clock_source w (clock_calls w)) in
          (Returned (Some merged),
           with_store (set_rows c (<[i := merged]> (rows c (store w))) (store w))
             (read_clock w).2)
      end
  end.
Proof.
  unfold update, mbind, M_bind, read.
  destruct (Js.findIndex _ _) as [i|]; [|done].
  destruct (_ !! i); done.
Qed.

Lemma delete_run c id w :
  DataStore.delete c id w =
  match Js.findIndex (has_id id) (rows c (store w)) with
  | None => (Returned false, w)
  | Some i =>
      (Returned true,
       with_store (set_rows c (base.delete i (rows c (store w))) (store w)) w)
  end.
Proof.
  unfold DataStore.delete, mbind, M_bind, read.
  destruct (Js.findIndex _ _) as [i|]; done.
Qed.

Lemma rows_set_rows c l s : rows c (set_rows c l s) = l.
Proof. by destruct c. Qed.

Lemma merged_record_lookup old data t k :
  merged_record old data t !! k =
  if decide (k = "updatedAt") then Some (VStr t)
  else match data !! k with Some v => Some v | None => old !! k end.
Proof.
  unfold merged_record. case_decide as Hk.
  - subst. by rewrite lookup_insert_eq.
  - rewrite lookup_insert_ne by done. rewrite lookup_union.
    destruct (data !! k), (old !! k); done.
Qed.

(** C7: [update(id, partial)] is a shallow merge.  When no record has the
    id it returns [null] and the state is unchanged.  When one has, the
    first such record is replaced, in place, by the merge that is returned:
    a field of [partial] has the value [partial] gives it, a field absent
    from [partial] keeps its value, and [updatedAt] is the clock reading
    taken by the call (also when [partial] carries an [updatedAt]). *)
Theorem update_is_shallow_merge (c : collection) (id : option value)
    (partial : obj) (w : World) :
  (find (has_id id) (rows c (store w)) = None →
   update c id partial w = (Returned None, w))
  ∧ (∀ old, find (has_id id) (rows c (store w)) = Some old →
     ∃ merged i,
       (update c id partial w).1 = Returned (Some merged)
       ∧ rows c (store w) !! i = Some old
       ∧ store (update c id partial w).2
         = set_rows c (<[i := merged]> (rows c (store w))) (store w)
       ∧ (∀ k v, partial !! k = Some v → k ≠ "updatedAt" → merged !! k = Some v)
       ∧ (∀ k, partial !! k = None → k ≠ "updatedAt" → merged !! k = old !! k)
       ∧ merged !! "updatedAt" = Some (VStr (clock_source w (clock_calls w)))).
Proof.
  split.
  - intros Hnone. rewrite update_run.
    apply findIndex_None in Hnone. by rewrite Hnone.
  - intros old Hold. destruct (find_findIndex _ _ _ Hold) as (i & Hi & Hli).
    rewrite update_run, Hi, Hli. cbn.
    eexists _, i. repeat split; [done| | |].
    + intros k v Hk Hne. rewrite merged_record_lookup, Hk. by case_decide.
    + intros k Hk Hne. rewrite merged_record_lookup, Hk. by case_decide.
    + by rewrite merged_record_lookup.
Qed.

(** ** Running the handlers *)

Lemma bind_run {A B} (m : M A) (f : A → M B) w :
  (m ≫= f) w =
  match m w with
  | (Returned a, w') => f a w'
  | (Thrown, w') => (Thrown, w')
  end.
Proof. reflexivity. Qed.

Lemma same_email_str body e user :
  body !! "email" = Some (VStr e) →
  UsersRouter.same_email body user = true ↔ user !! "email" = Some (VStr e).
Proof. intros Hb. unfold UsersRouter.same_email. rewrite Hb. apply strict_eq_str. Qed.

(** ** Running the chains of a route *)

Section Chains.
Context `{Runtime}.



Lemma validate_refuses_errors (errors : list FieldError) (next : Handler)
    (w : World) :
  errors ≠ [] →
  Validation.validate errors next w
  = ({| status := 400;
        payload := ValidationJson (clock_source w (clock_calls w)) errors |},
     (read_clock w).2).
Proof. by destruct errors. Qed.

Lemma route_passes (cs : list Validation.chain) (handler : obj → Handler)
    (body : obj) :
  (Validation.run_chains cs body).1 = [] →
  Validation.route [] cs handler body
  = handler (Validation.run_chains cs body).2.
Proof. unfold Validation.route. by intros ->. Qed.

Lemma route_with_id_passes (id msg : string) (cs : list Validation.chain)
    (handler : obj → Handler) (body : obj) :
  isUUID id = true →
  (Validation.run_chains cs body).1 = [] →
  Validation.route (Validation.param_id_isUUID id msg) cs handler body
  = handler (Validation.run_chains cs body).2.
Proof.
  intros Hid Hpass. unfold Validation.route, Validation.param_id_isUUID.
  by rewrite Hid, Hpass.
Qed.

Lemma route_refuses (ids : list FieldError) (cs : list Validation.chain)
    (handler : obj → Handler) (body : obj) (w : World) :
  ids ++ (Validation.run_chains cs body).1 ≠ [] →
  Validation.route ids cs handler body w
  = ({| status := 400;
        payload := ValidationJson (clock_source w (clock_calls w))
                     (ids ++ (Validation.run_chains cs body).1) |},
     (read_clock w).2).
Proof. intros Hne. unfold Validation.route. by apply validate_refuses_errors. Qed.

(** A chain leaves the other fields of the body as they are. *)
Lemma run_chain_other (c : Validation.chain) (body : obj) (k : string) :
  k ≠ Validation.target c →
  (Validation.run_chain c body).2 !! k = body !! k.
Proof.
  intros Hk. unfold Validation.run_chain.
  destruct (Validation.optional c), (body !! Validation.target c);
    cbn [snd]; try done;
    destruct (Validation.run_items _ _ _).2; by rewrite ?lookup_insert_ne.
Qed.

Lemma run_chains_other (cs : list Validation.chain) (body : obj) (k : string) :
  Forall (λ c, k ≠ Validation.target c) cs →
  (Validation.run_chains cs body).2 !! k = body !! k.
Proof.
  intros Hall. revert body.
  induction Hall as [|c cs Hc _ IH]; intros body; simpl; [done|].
  by rewrite IH, run_chain_other.
Qed.

(** A chain of validators only leaves the body as it is. *)
Lemma run_items_checks (name : string) (its : list Validation.item)
    (v : option value) :
  Forall (λ it, ∃ test msg, it = Validation.Check test msg) its →
  (Validation.run_items name its v).2 = v.
Proof.
  induction 1 as [|it its (test & msg & ->) _ IH]; simpl; [done|]. exact IH.
Qed.

Lemma run_items_Some (name : string) (its : list Validation.item) (x : value) :
  ∃ y, (Validation.run_items name its (Some x)).2 = Some y.
Proof.
  revert x. induction its as [|[f|test msg] its IH]; intros x; simpl.
  - by exists x.
  - apply IH.
  - apply IH.
Qed.

(** The field of a chain, after the chain. *)
Lemma run_chain_target (c : Validation.chain) (body : obj) (k : string) :
  k = Validation.target c →
  (Validation.run_chain c body).2 !! k
  = match Validation.optional c, body !! k with
    | true, None => None
    | _, v => (Validation.run_items k (Validation.items c) v).2
    end.
Proof.
  intros ->. unfold Validation.run_chain.
  destruct (Validation.optional c), (body !! Validation.target c) as [x|] eqn:Hb;
    cbn [snd]; try done.
  - destruct (run_items_Some (Validation.target c) (Validation.items c) x)
      as (y & ->). by rewrite lookup_insert_eq.
  - destruct (run_items_Some (Validation.target c) (Validation.items c) x)
      as (y & ->). by rewrite lookup_insert_eq.
  - destruct (Validation.run_items _ _ _).2 eqn:Hr;
      by rewrite ?lookup_insert_eq.
Qed.

End Chains.

(** ** [POST /users] *)

Section UsersPost.
Context `{Runtime} `{Checks}.

Lemma users_post_run (body : obj) (w : World) :
  UsersRouter.post body w
  = match find (UsersRouter.same_email body) (users (store w)) with
    | Some _ =>
        (error_response 409 "User with this email already exists"
           (clock_source w (clock_calls w)), (read_clock w).2)
    | None =>
        let newUser := new_record (uuid_source w (uuid_calls w)) body
                         (clock_source w (clock_calls w))
                         (clock_source w (S (clock_calls w))) in
        ({| status := 201;
            payload := MessageDataJson "User created successfully"
                         (Some newUser) |},
         created Users newUser w)
    end.
Proof.
  unfold UsersRouter.post, try_catch.
  rewrite bind_run. cbn [getAll read rows].
  destruct (find _ _); [done|]. by rewrite bind_run, create_run.
Qed.

(** What the handlers of [POST /users] and of [PATCH /users/:id] receive
    of a request. *)
Lemma users_post_sent (body : obj) :
  let sent := (Validation.run_chains UsersRouter.post_chains body).2 in
  sent !! "name"
  = Some (Validation.sanitised (λ s, VStr (trim s)) (body !! "name"))
  ∧ sent !! "email"
    = Some (Validation.sanitised normalizeEmail (body !! "email"))
  ∧ ∀ k, k ≠ "name" → k ≠ "email" → sent !! k = body !! k.
Proof.
  cbv zeta. split; [|split].
  - unfold UsersRouter.post_chains. cbn [Validation.run_chains snd].
    rewrite run_chain_other by done. rewrite run_chain_other by done.
    rewrite run_chain_target by done. cbn. by destruct (body !! "name").
  - unfold UsersRouter.post_chains. cbn [Validation.run_chains snd].
    rewrite run_chain_other by done.
    rewrite run_chain_target by done. rewrite run_chain_other by done.
    cbn. by destruct (body !! "email").
  - intros k Hn He. unfold UsersRouter.post_chains.
    cbn [Validation.run_chains snd].
    destruct (decide (k = "age")) as [->|Ha].
    + rewrite run_chain_target by done.
      rewrite !run_chain_other by done. cbn. by destruct (body !! "age").
    + by rewrite !run_chain_other.
Qed.

Lemma users_patch_sent (body : obj) :
  let sent := (Validation.run_chains UsersRouter.patch_chains body).2 in
  sent !! "name"
  = (λ v, Validation.sanitised (λ s, VStr (trim s)) (Some v))
      <$> body !! "name"
  ∧ sent !! "email"
    = (λ v, Validation.sanitised normalizeEmail (Some v)) <$> body !! "email"
  ∧ ∀ k, k ≠ "name" → k ≠ "email" → sent !! k = body !! k.
Proof.
  cbv zeta. split; [|split].
  - unfold UsersRouter.patch_chains. cbn [Validation.run_chains snd].
    rewrite run_chain_other by done. rewrite run_chain_other by done.
    rewrite run_chain_target by done. cbn. by destruct (body !! "name").
  - unfold UsersRouter.patch_chains. cbn [Validation.run_chains snd].
    rewrite run_chain_other by done.
    rewrite run_chain_target by done. rewrite run_chain_other by done.
    cbn. by destruct (body !! "email").
  - intros k Hn He. unfold UsersRouter.patch_chains.
    cbn [Validation.run_chains snd].
    destruct (decide (k = "age")) as [->|Ha].
    + rewrite run_chain_target by done.
      rewrite !run_chain_other by done. cbn. by destruct (body !! "age").
    + by rewrite !run_chain_other.
Qed.

End UsersPost.

(** C3, as amended: a [POST /users] request that passes the validation
    reaches the handler with its email rewritten by [normalizeEmail] (and
    its name trimmed).  When some stored user has the rewritten email
    (strict equality) the answer is 409 "User with this email already
    exists" and the store is unchanged, whatever the other fields of the
    body and of the stored users; when no stored user has it, the answer
    is 201 with the record that [create] returns for the body as the
    handler received it, in the state that [create] leaves. *)
Theorem post_user_email_conflict `{Runtime} `{Checks} (w : World)
    (body : obj) :
  (Validation.run_chains UsersRouter.post_chains body).1 = [] →
  let sent := (Validation.run_chains UsersRouter.post_chains body).2 in
  (∀ e, body !! "email" = Some (VStr e) →
        sent !! "email" = Some (normalizeEmail e))
  ∧ (Exists (λ user : obj,
               Js.strict_eq (user !! "email") (sent !! "email") = true)
       (users (store w)) →
     (UsersRouter.post_route body w).1
     = error_response 409 "User with this email already exists"
         (clock_source w (clock_calls w))
     ∧ store (UsersRouter.post_route body w).2 = store w)
  ∧ (Forall (λ user : obj,
               Js.strict_eq (user !! "email") (sent !! "email") = false)
       (users (store w)) →
     ∃ newUser w',
       create Users sent w = (Returned newUser, w')
       ∧ UsersRouter.post_route body w
         = ({| status := 201;
               payload := MessageDataJson "User created successfully"
                            (Some newUser) |}, w')).
Proof.
  intros Hpass sent. unfold UsersRouter.post_route.
  rewrite route_passes by done. fold sent. rewrite users_post_run.
  split; [|split].
  - intros e He. destruct (users_post_sent body) as (_ & Hemail & _).
    fold sent in Hemail. by rewrite Hemail, He.
  - intros Hex.
    destruct (find (UsersRouter.same_email sent) (users (store w)))
      as [u|] eqn:Hf; [done|].
    exfalso. apply find_None_Forall in Hf.
    apply Exists_exists in Hex as (u & Hu & Hue).
    rewrite Forall_forall in Hf. specialize (Hf u Hu).
    unfold UsersRouter.same_email in Hf. congruence.
  - intros Hall.
    destruct (find (UsersRouter.same_email sent) (users (store w)))
      as [u|] eqn:Hf.
    + exfalso. apply find_Some_elem in Hf as [Hu Hue].
      rewrite Forall_forall in Hall. specialize (Hall u Hu).
      unfold UsersRouter.same_email in Hue. congruence.
    + rewrite create_run. eexists _, _. split; reflexivity.
Qed.

(** ** The composition rule of [POST /orders] *)

(** One step of a handler: the bind, then what its first action does. *)
Ltac step_with lem := rewrite bind_run, lem; cbv beta iota.

Section OrderFacts.
Context `{Runtime}.

Lemma snapshot_field ps item name :
  attribute (snapshot ps item) name =
  if decide (name = "productId") then attribute item "productId"
  else if decide (name = "quantity") then attribute item "quantity"
  else if decide (name = "price") then product_of ps item ≫= (.!! "price")
  else None.
Proof.
  unfold snapshot, OrdersRouter.literal, attribute at 1. simpl.
  destruct (attribute item "productId"), (attribute item "quantity"),
    (product_of ps item ≫= _); simpl;
    repeat case_decide; simplify_map_eq; done.
Qed.

Lemma line_amount_snapshot ps item product :
  product_of ps item = Some product →
  line_amount (snapshot ps item)
  = (Js.ToNumber (product !! "price") * Js.ToNumber (attribute item "quantity"))%float.
Proof.
  intros Hp. unfold line_amount. rewrite !snapshot_field. simpl.
  by rewrite Hp.
Qed.

Lemma prop_object o name w :
  OrdersRouter.prop (VObj o) name w = (Returned (o !! name), w).
Proof. reflexivity. Qed.

(** One turn of the loop on an item that passes both checks. *)
Lemma validate_products_step item rest total acc w :
  is_object item → available (products (store w)) item →
  OrdersRouter.validate_products (item :: rest) total acc w
  = OrdersRouter.validate_products rest
      (total + line_amount (snapshot (products (store w)) item))%float
      (acc ++ [snapshot (products (store w)) item]) w.
Proof.
  intros [o ->] (product & Hp & Hs).
  rewrite (line_amount_snapshot _ _ product Hp).
  unfold product_of in Hp. simpl in Hp.
  cbn [OrdersRouter.validate_products].
  step_with prop_object. step_with getById_run. cbn [rows].
  rewrite Hp, Hs. cbn [negb]. cbv iota.
  step_with prop_object.
  unfold snapshot, product_of. simpl attribute. by rewrite Hp.
Qed.

Lemma validate_products_available pre rest total acc w :
  Forall is_object pre → Forall (available (products (store w))) pre →
  OrdersRouter.validate_products (pre ++ rest) total acc w
  = OrdersRouter.validate_products rest
      (total_from total (snapshot (products (store w)) <$> pre))
      (acc ++ (snapshot (products (store w)) <$> pre)) w.
Proof.
  revert total acc. induction pre as [|item pre IH]; intros total acc Ho Ha.
  - simpl. by rewrite app_nil_r.
  - inversion Ho; inversion Ha; subst. simpl app.
    rewrite validate_products_step by done. rewrite IH by done.
    rewrite fmap_cons. unfold total_from. simpl fold_left.
    by rewrite <- app_assoc.
Qed.



(** The loop writes nothing, and a response it sends is an error. *)
Lemma validate_products_store items total acc w :
  store (OrdersRouter.validate_products items total acc w).2 = store w.
Proof.
  revert total acc. induction items as [|item items IH]; intros total acc.
  - done.
  - cbn [OrdersRouter.validate_products]. rewrite bind_run.
    destruct item; try done;
      (cbn [OrdersRouter.prop mret M_ret]; cbv beta iota;
       step_with getById_run; cbn [rows];
       destruct (find _ _) as [product|]; [|done];
       destruct (negb _); [done|];
       rewrite bind_run; cbn [OrdersRouter.prop mret M_ret]; cbv beta iota;
       apply IH).
Qed.


End OrderFacts.

Lemma new_record_lookup id data t1 t2 k :
  new_record id data t1 t2 !! k =
  if decide (k = "updatedAt") then Some (VStr t2)
  else if decide (k = "createdAt") then Some (VStr t1)
  else match data !! k with
       | Some v => Some v
       | None => if decide (k = "id") then Some (VStr id) else None
       end.
Proof.
  unfold new_record. repeat case_decide; subst; simplify_map_eq; try done.
  - rewrite lookup_union. destruct (data !! "id"); by simplify_map_eq.
  - rewrite lookup_union. destruct (data !! k); by simplify_map_eq.
Qed.

Lemma try_catch_returned (m : M response) msg w r w' :
  m w = (Returned r, w') → try_catch m msg w = (r, w').
Proof. unfold try_catch. by intros ->. Qed.

Section OrderCreation.
Context `{Runtime}.

Lemma order_data_lookup body lines :
  order_data body lines !! "products" = Some (VArr lines)
  ∧ order_data body lines !! "totalAmount" = Some (VNum (order_total lines))
  ∧ order_data body lines !! "status" = Some (VStr "pending")
  ∧ order_data body lines !! "userId" = body !! "userId"
  ∧ order_data body lines !! "id" = None.
Proof.
  unfold order_data, OrdersRouter.literal. simpl.
  destruct (body !! "userId"); by simplify_map_eq.
Qed.

Lemma post_order_accepted (w : World) (body : obj) (items : list value) :
  is_Some (find (has_id (body !! "userId")) (users (store w))) →
  body !! "products" = Some (VArr items) →
  Forall is_object items →
  Forall (available (products (store w))) items →
  OrdersRouter.post body w
  = let newOrder :=
      new_record (uuid_source w (uuid_calls w))
        (order_data body (snapshot (products (store w)) <$> items))
        (clock_source w (clock_calls w))
        (clock_source w (S (clock_calls w))) in
    ({| status := 201;
        payload := MessageDataJson "Order created successfully" (Some newOrder) |},
     created Orders newOrder w).
Proof.
  intros [user Hu] Hb Ho Ha. unfold OrdersRouter.post.
  apply try_catch_returned.
  step_with getById_run. cbn [rows]. rewrite Hu, Hb. cbv iota.
  rewrite bind_run. cbn [OrdersRouter.iterate mret M_ret]. cbv beta iota.
  rewrite bind_run.
  rewrite <- (app_nil_r items) at 1.
  rewrite validate_products_available by done.
  cbn [OrdersRouter.validate_products mret M_ret]. cbv beta iota.
  rewrite app_nil_l. step_with create_run. reflexivity.
Qed.

(** C1: when the user of the request exists and every listed product
    exists with [inStock] true, [POST /orders] answers 201 and appends one
    order to the collection: its products are the snapshots
    [{productId, quantity, price}] of the lines of the request, with the
    price the product collection holds at that time, its totalAmount is
    the sum over these stored lines of price × quantity, and its status is
    "pending". *)
Theorem post_order_snapshots_and_total (w : World) (body : obj)
    (items : list value) :
  is_Some (find (has_id (body !! "userId")) (users (store w))) →
  body !! "products" = Some (VArr items) →
  Forall is_object items →
  Forall (λ item, ∃ product,
            product_of (products (store w)) item = Some product
            ∧ product !! "inStock" = Some (VBool true)) items →
  ∃ newOrder,
    (OrdersRouter.post body w).1
    = {| status := 201;
         payload := MessageDataJson "Order created successfully" (Some newOrder) |}
    ∧ store (OrdersRouter.post body w).2
      = set_rows Orders (orders (store w) ++ [newOrder]) (store w)
    ∧ newOrder !! "products"
      = Some (VArr (snapshot (products (store w)) <$> items))
    ∧ newOrder !! "totalAmount"
      = Some (VNum (order_total (snapshot (products (store w)) <$> items)))
    ∧ newOrder !! "status" = Some (VStr "pending").
Proof.
  intros Hu Hb Ho Hs.
  assert (Ha : Forall (available (products (store w))) items).
  { eapply Forall_impl; [exact Hs|]. intros item (product & Hp & Hi).
    exists product. split; [done|]. by rewrite Hi. }
  rewrite (post_order_accepted w body items Hu Hb Ho Ha). cbv zeta.
  eexists. split; [reflexivity|]. split; [reflexivity|].
  destruct (order_data_lookup body (snapshot (products (store w)) <$> items))
    as (Hp & Ht & Hst & _).
  rewrite !new_record_lookup, Hp, Ht, Hst. repeat case_decide; try done.
Qed.


End OrderCreation.

(** ** Pagination *)

Section Slices.
Context {A : Type}.
Implicit Types l : list A.

Lemma slice_page l (page limit : Z) :
  (1 ≤ page)%Z → (1 ≤ limit)%Z →
  Js.slice l ((page - 1) * limit) (page * limit)
  = take (Z.to_nat limit) (drop (Z.to_nat (page - 1) * Z.to_nat limit) l).
Proof.
  intros Hp Hl. unfold Js.slice, Js.slice_index.
  assert (0 ≤ (page - 1) * limit)%Z as H0 by nia.
  assert (0 ≤ page * limit)%Z as H1 by nia.
  destruct (Z.ltb_spec ((page - 1) * limit) 0); [lia|].
  destruct (Z.ltb_spec (page * limit) 0); [lia|].
  replace (Z.to_nat (page - 1) * Z.to_nat limit)%nat
    with (Z.to_nat ((page - 1) * limit)) by nia.
  set (len := length l).
  destruct (Z.le_gt_cases (Z.of_nat len) ((page - 1) * limit)) as [Hge|Hlt].
  - rewrite !Z.min_r by nia.
    rewrite Z.sub_diag. simpl. rewrite Nat2Z.id.
    rewrite !drop_ge by (subst len; lia). by rewrite !take_nil.
  - rewrite (Z.min_l ((page - 1) * limit)) by lia.
    destruct (Z.le_gt_cases (page * limit) (Z.of_nat len)) as [Hin|Hout].
    + rewrite Z.min_l by lia. f_equal. nia.
    + rewrite Z.min_r by lia.
      rewrite !take_ge; [done| |]; rewrite length_drop; subst len; nia.
Qed.


End Slices.

Lemma ceil_div_bounds (total limit : Z) :
  (1 ≤ limit)%Z →
  ((Js.ceil_div total limit - 1) * limit < total
   ≤ Js.ceil_div total limit * limit)%Z.
Proof.
  intros Hl. unfold Js.ceil_div.
  pose proof (Z.div_mod (- total) limit ltac:(lia)).
  pose proof (Z.mod_pos_bound (- total) limit ltac:(lia)).
  nia.
Qed.

Section ListHandlers.
Context `{Runtime}.

Lemma int_or_page (q : option string) :
  valid_page q → (1 ≤ Routes.int_or q 1)%Z.
Proof.
  unfold valid_page, Routes.int_or. destruct q as [s|]; simpl; [|lia].
  intros (n & -> & Hn). destruct (Z.eqb_spec n 0); lia.
Qed.

Lemma int_or_limit (q : option string) :
  valid_limit q → (1 ≤ Routes.int_or q 10 ≤ 100)%Z.
Proof.
  unfold valid_limit, Routes.int_or. destruct q as [s|]; simpl; [|lia].
  intros (n & -> & Hn). destruct (Z.eqb_spec n 0); lia.
Qed.












End ListHandlers.

(** ** Replacing and patching an order *)

Section OrderUpdates.
Context `{Runtime}.



Lemma update_found c id data w old :
  find (has_id id) (rows c (store w)) = Some old →
  ∃ i, rows c (store w) !! i = Some old
       ∧ Js.findIndex (has_id id) (rows c (store w)) = Some i
       ∧ update c id data w
         = (Returned (Some (merged_record old data (clock_source w (clock_calls w)))),
            updated c i (merged_record old data (clock_source w (clock_calls w))) w).
Proof.
  intros Hf. destruct (find_findIndex _ _ _ Hf) as (i & Hi & Hli).
  exists i. split; [done|]. split; [done|]. by rewrite update_run, Hi, Hli.
Qed.


Lemma patch_order_found (w : World) (id : string) (body : obj) (old : obj) :
  find (has_id (Some (VStr id))) (orders (store w)) = Some old →
  ∃ i, orders (store w) !! i = Some old
    ∧ OrdersRouter.patch id body w
      = ({| status := 200;
            payload := MessageDataJson "Order updated successfully"
              (Some (merged_record old body (clock_source w (clock_calls w)))) |},
         updated Orders i
           (merged_record old body (clock_source w (clock_calls w))) w).
Proof.
  intros Hord.
  destruct (update_found Orders (Some (VStr id)) body w old Hord)
    as (i & Hi & _ & Hupd).
  exists i. split; [done|].
  unfold OrdersRouter.patch, try_catch.
  step_with getById_run. cbn [rows]. rewrite Hord.
  by step_with Hupd.
Qed.


End OrderUpdates.

(** ** Creating a record, then reading it back *)

Lemma find_snoc {A} (p : A → bool) (l : list A) (x : A) :
  find p (l ++ [x])
  = match find p l with
    | Some y => Some y
    | None => if p x then Some x else None
    end.
Proof.
  induction l as [|y l IH]; simpl; [done|]. by destruct (p y).
Qed.

Lemma get_by_id_run c id missing failed w :
  Routes.get_by_id c id missing failed w
  = match find (has_id (Some (VStr id))) (rows c (store w)) with
    | Some r => ({| status := 200; payload := DataJson (Some r) |}, w)
    | None =>
        (error_response 404 missing (clock_source w (clock_calls w)),
         (read_clock w).2)
    end.
Proof.
  unfold Routes.get_by_id, try_catch. step_with getById_run.
  by destruct (find _ _).
Qed.

Lemma has_id_new_record id data t1 t2 :
  data !! "id" = None →
  has_id (Some (VStr id)) (new_record id data t1 t2) = true.
Proof.
  intros Hd. unfold has_id. rewrite new_record_lookup, Hd.
  repeat case_decide; try done. apply strict_eq_str. done.
Qed.

(** Reading back, by the generated id, the record [create] has stored. *)
Lemma get_created c data w missing failed :
  data !! "id" = None →
  find (has_id (Some (VStr (uuid_source w (uuid_calls w))))) (rows c (store w))
  = None →
  let r := new_record (uuid_source w (uuid_calls w)) data
             (clock_source w (clock_calls w))
             (clock_source w (S (clock_calls w))) in
  (Routes.get_by_id c (uuid_source w (uuid_calls w)) missing failed
     (created c r w)).1
  = {| status := 200; payload := DataJson (Some r) |}.
Proof.
  intros Hd Hfresh r. rewrite get_by_id_run.
  unfold created at 1. cbn [store]. rewrite rows_set_rows, find_snoc, Hfresh.
  subst r. by rewrite has_id_new_record.
Qed.

Lemma new_record_stamped data w :
  data !! "id" = None →
  stamped (new_record (uuid_source w (uuid_calls w)) data
             (clock_source w (clock_calls w))
             (clock_source w (S (clock_calls w)))) data w.
Proof.
  intros Hd. unfold stamped. rewrite !new_record_lookup, Hd.
  repeat split; try by repeat case_decide.
  intros name H1 H2 H3. rewrite new_record_lookup.
  repeat case_decide; try done. by destruct (data !! name).
Qed.

Section CreateThenGet.
Context `{Runtime}.

Lemma validate_products_response items total acc w r w' :
  OrdersRouter.validate_products items total acc w = (Returned (inl r), w') →
  status r = 404%Z ∨ status r = 400%Z.
Proof.
  revert total acc. induction items as [|item items IH]; intros total acc.
  - done.
  - cbn [OrdersRouter.validate_products]. rewrite bind_run.
    destruct item; try done;
      (cbn [OrdersRouter.prop mret M_ret]; cbv beta iota;
       step_with getById_run; cbn [rows];
       destruct (find _ _) as [product|];
       [|intros [= <- _]; by left];
       destruct (negb _); [intros [= <- _]; by right|];
       rewrite bind_run; cbn [OrdersRouter.prop mret M_ret]; cbv beta iota;
       apply IH).
Qed.

(** [POST /orders] either answers with an error, or stores and answers with
    the record made from the data of the composition rule. *)
Lemma post_order_cases (w : World) (body : obj) :
  status (OrdersRouter.post body w).1 ≠ 201%Z
  ∨ ∃ lines total,
      OrdersRouter.post body w
      = let data := OrdersRouter.literal
                      [ ("userId", body !! "userId");
                        ("products", Some (VArr lines));
                        ("totalAmount", Some (VNum total));
                        ("status", Some (VStr "pending")) ] in
        let r := new_record (uuid_source w (uuid_calls w)) data
                   (clock_source w (clock_calls w))
                   (clock_source w (S (clock_calls w))) in
        ({| status := 201;
            payload := MessageDataJson "Order created successfully" (Some r) |},
         created Orders r w).
Proof.
  unfold OrdersRouter.post, try_catch.
  step_with getById_run. cbn [rows].
  destruct (find _ _) as [user|]; [|by left].
  rewrite bind_run.
  destruct (OrdersRouter.iterate (body !! "products") w) as [[items|] w1] eqn:Hit;
    [|by left].
  assert (w1 = w) as ->.
  { unfold OrdersRouter.iterate in Hit.
    destruct (body !! "products") as [[]|]; by inversion Hit. }
  rewrite bind_run.
  destruct (OrdersRouter.validate_products items 0%float [] w)
    as [[[r|[totalAmount validatedProducts]]|] w2] eqn:Hv.
  - left. simpl. destruct (validate_products_response _ _ _ _ _ _ Hv) as [->| ->]; done.
  - pose proof (validate_products_store items 0%float [] w) as Hst.
    rewrite Hv in Hst. simpl in Hst.
    assert (w2 = w) as ->; [|right; eexists _, _; by step_with create_run].
    clear -Hv. revert Hv. generalize (0%float) ([] : list value).
    induction items as [|item items IH]; intros total acc.
    + by intros [= _ _ <-].
    + cbn [OrdersRouter.validate_products]. rewrite bind_run.
      destruct item; try done;
        (cbn [OrdersRouter.prop mret M_ret]; cbv beta iota;
         step_with getById_run; cbn [rows];
         destruct (find _ _) as [product|]; [|done];
         destruct (negb _); [done|];
         rewrite bind_run; cbn [OrdersRouter.prop mret M_ret]; cbv beta iota;
         apply IH).
  - by left.
Qed.

Lemma literal_order_id (body : obj) lines total :
  OrdersRouter.literal
    [ ("userId", body !! "userId"); ("products", Some (VArr lines));
      ("totalAmount", Some (VNum total)); ("status", Some (VStr "pending")) ]
  !! "id" = None
  ∧ OrdersRouter.literal
      [ ("userId", body !! "userId"); ("products", Some (VArr lines));
        ("totalAmount", Some (VNum total)); ("status", Some (VStr "pending")) ]
    !! "userId" = body !! "userId".
Proof.
  unfold OrdersRouter.literal. simpl.
  destruct (body !! "userId"); by simplify_map_eq.
Qed.

Context `{Checks}.

(** What the handler of [POST /products] receives of a request. *)
Lemma products_post_sent (body : obj) :
  let sent := (Validation.run_chains ProductsRouter.post_chains body).2 in
  sent !! "name"
  = Some (Validation.sanitised (λ s, VStr (trim s)) (body !! "name"))
  ∧ sent !! "description"
    = (λ v, Validation.sanitised (λ s, VStr (trim s)) (Some v))
        <$> body !! "description"
  ∧ ∀ k, k ≠ "name" → k ≠ "description" → sent !! k = body !! k.
Proof.
  cbv zeta. split; [|split].
  - unfold ProductsRouter.post_chains. cbn [Validation.run_chains snd].
    rewrite !run_chain_other by done.
    rewrite run_chain_target by done. cbn. by destruct (body !! "name").
  - unfold ProductsRouter.post_chains. cbn [Validation.run_chains snd].
    rewrite !run_chain_other by done.
    rewrite run_chain_target by done. rewrite run_chain_other by done.
    cbn. by destruct (body !! "description").
  - intros k Hn Hd. unfold ProductsRouter.post_chains.
    cbn [Validation.run_chains snd].
    destruct (decide (k = "price")) as [->|Hp].
    { rewrite !run_chain_other by done. rewrite run_chain_target by done.
      rewrite !run_chain_other by done. cbn. by destruct (body !! "price"). }
    destruct (decide (k = "category")) as [->|Hc].
    { rewrite !run_chain_other by done. rewrite run_chain_target by done.
      rewrite !run_chain_other by done. cbn.
      by destruct (body !! "category"). }
    destruct (decide (k = "inStock")) as [->|Hi].
    { rewrite run_chain_target by done.
      rewrite !run_chain_other by done. cbn.
      by destruct (body !! "inStock"). }
    by rewrite !run_chain_other.
Qed.

(** C6, as amended: let id be the identifier that [uuidv4()] gives next,
    a UUID that no stored record of the collection has.  A [POST /users]
    request that passes the validation, with no [id] in its body and an
    email that, once rewritten by [normalizeEmail], no stored user has, is
    answered 201 with a record that [GET /users/id] then gives back; it
    holds the id, the two clock readings that [create] takes as createdAt
    and updatedAt, and every other field of the body as the handler
    received it: the name trimmed, the email rewritten, the others as
    submitted.  The same for [POST /products], whose name and description
    are trimmed.  [POST /orders], whose chains hold validators only,
    answered 201 returns a record that [GET /orders/id] then gives back,
    with the id, the userId of the body and the two clock readings. *)
Theorem create_then_get_by_id (w : World) (body : obj) :
  let id := uuid_source w (uuid_calls w) in
  isUUID id = true →
  (let sent := (Validation.run_chains UsersRouter.post_chains body).2 in
   (Validation.run_chains UsersRouter.post_chains body).1 = [] →
   body !! "id" = None →
   find (has_id (Some (VStr id))) (users (store w)) = None →
   find (UsersRouter.same_email sent) (users (store w)) = None →
   ∃ r, (UsersRouter.post_route body w).1
        = {| status := 201;
             payload := MessageDataJson "User created successfully" (Some r) |}
        ∧ (IdRoutes.users_get id (UsersRouter.post_route body w).2).1
          = {| status := 200; payload := DataJson (Some r) |}
        ∧ stamped r sent w
        ∧ sent !! "name"
          = Some (Validation.sanitised (λ s, VStr (trim s)) (body !! "name"))
        ∧ sent !! "email"
          = Some (Validation.sanitised normalizeEmail (body !! "email"))
        ∧ ∀ k, k ≠ "name" → k ≠ "email" → sent !! k = body !! k)
  ∧ (let sent := (Validation.run_chains ProductsRouter.post_chains body).2 in
     (Validation.run_chains ProductsRouter.post_chains body).1 = [] →
     body !! "id" = None →
     find (has_id (Some (VStr id))) (products (store w)) = None →
     ∃ r, (ProductsRouter.post_route body w).1
          = {| status := 201;
               payload := MessageDataJson "Product created successfully"
                            (Some r) |}
          ∧ (IdRoutes.products_get id (ProductsRouter.post_route body w).2).1
            = {| status := 200; payload := DataJson (Some r) |}
          ∧ stamped r sent w
          ∧ sent !! "name"
            = Some (Validation.sanitised (λ s, VStr (trim s))
                      (body !! "name"))
          ∧ sent !! "description"
            = (λ v, Validation.sanitised (λ s, VStr (trim s)) (Some v))
                <$> body !! "description"
          ∧ ∀ k, k ≠ "name" → k ≠ "description" → sent !! k = body !! k)
  ∧ (status (OrdersRouter.post body w).1 = 201%Z →
     find (has_id (Some (VStr id))) (orders (store w)) = None →
     ∃ r, (OrdersRouter.post body w).1
          = {| status := 201;
               payload := MessageDataJson "Order created successfully" (Some r) |}
          ∧ (IdRoutes.orders_get id (OrdersRouter.post body w).2).1
            = {| status := 200; payload := DataJson (Some r) |}
          ∧ r !! "id" = Some (VStr id)
          ∧ r !! "userId" = body !! "userId"
          ∧ r !! "createdAt" = Some (VStr (clock_source w (clock_calls w)))
          ∧ r !! "updatedAt" = Some (VStr (clock_source w (S (clock_calls w))))).
Proof.
  intros id Huuid.
  assert (Hget : ∀ msg (h : Handler),
    Validation.validate (Validation.param_id_isUUID id msg) h = h).
  { intros msg h. unfold Validation.param_id_isUUID. by rewrite Huuid. }
  unfold IdRoutes.users_get, IdRoutes.products_get, IdRoutes.orders_get.
  rewrite !Hget. split; [|split].
  - cbv zeta.
    set (sent := (Validation.run_chains UsersRouter.post_chains body).2).
    intros Hpass Hid Hfresh Hemail.
    destruct (users_post_sent body) as (Hname & Hmail & Hrest).
    fold sent in Hname, Hmail, Hrest.
    assert (Hsid : sent !! "id" = None) by (by rewrite Hrest).
    unfold UsersRouter.post_route. rewrite route_passes by done. fold sent.
    rewrite users_post_run, Hemail. cbv zeta.
    eexists. split; [reflexivity|].
    split; [by apply (get_created Users)|].
    split; [by apply new_record_stamped|done].
  - cbv zeta.
    set (sent := (Validation.run_chains ProductsRouter.post_chains body).2).
    intros Hpass Hid Hfresh.
    destruct (products_post_sent body) as (Hname & Hdesc & Hrest).
    fold sent in Hname, Hdesc, Hrest.
    assert (Hsid : sent !! "id" = None) by (by rewrite Hrest).
    assert (Hpost : ProductsRouter.post sent w
      = ({| status := 201;
            payload := MessageDataJson "Product created successfully"
              (Some (new_record id sent (clock_source w (clock_calls w))
                       (clock_source w (S (clock_calls w))))) |},
         created Products (new_record id sent (clock_source w (clock_calls w))
                             (clock_source w (S (clock_calls w)))) w)).
    { unfold ProductsRouter.post. apply try_catch_returned.
      by step_with create_run. }
    unfold ProductsRouter.post_route. rewrite route_passes by done. fold sent.
    rewrite Hpost. eexists. split; [reflexivity|].
    split; [by apply (get_created Products)|].
    split; [by apply new_record_stamped|done].
  - intros Hst Hfresh.
    destruct (post_order_cases w body) as [Hne|(lines & total & Hpost)]; [done|].
    cbv zeta in Hpost. rewrite Hpost.
    destruct (literal_order_id body lines total) as [Hlid Hluser].
    eexists. split; [reflexivity|].
    split; [by apply (get_created Orders)|].
    destruct (new_record_stamped _ w Hlid) as (H1 & H2 & H3 & H4).
    subst id. rewrite (H4 "userId") by done. done.
Qed.

End CreateThenGet.

(** ** Lists of keys without duplicates *)

Section Keys.
Context {A B : Type} (f : A → option B).
Implicit Types l : list A.

Lemma omap_middle l i x :
  l !! i = Some x →
  omap f l = omap f (take i l) ++ option_list (f x) ++ omap f (drop (S i) l).
Proof.
  intros Hi. rewrite <- (take_drop_middle l i x Hi) at 1.
  rewrite omap_app. simpl. by destruct (f x).
Qed.

Lemma omap_insert l i x y :
  l !! i = Some x →
  omap f (<[i := y]> l)
  = omap f (take i l) ++ option_list (f y) ++ omap f (drop (S i) l).
Proof.
  intros Hi. rewrite insert_take_drop by (by eapply lookup_lt_Some).
  rewrite omap_app. simpl. by destruct (f y).
Qed.

Lemma omap_delete l i x :
  l !! i = Some x →
  omap f (base.delete i l) = omap f (take i l) ++ omap f (drop (S i) l).
Proof. intros Hi. by rewrite delete_take_drop, omap_app. Qed.

Lemma NoDup_omap_without l i x :
  l !! i = Some x → NoDup (omap f l) →
  NoDup (omap f (take i l) ++ omap f (drop (S i) l)).
Proof.
  intros Hi. rewrite (omap_middle l i x Hi).
  destruct (f x) as [b|]; simpl; [|done].
  rewrite !NoDup_app, NoDup_cons. set_solver.
Qed.

Lemma elem_of_omap_others l i b :
  b ∈ omap f (take i l) ++ omap f (drop (S i) l) →
  ∃ j u, j ≠ i ∧ l !! j = Some u ∧ f u = Some b.
Proof.
  rewrite elem_of_app, !list_elem_of_omap.
  intros [(u & Hu & Hb)|(u & Hu & Hb)].
  - apply list_elem_of_lookup in Hu as (j & Hj).
    apply lookup_take_Some in Hj as [Hj Hlt].
    exists j, u. split; [lia|done].
  - apply list_elem_of_lookup in Hu as (j & Hj).
    rewrite lookup_drop in Hj.
    exists (S i + j)%nat, u. split; [lia|done].
Qed.

Lemma NoDup_omap_lookup l i j x y b :
  NoDup (omap f l) → l !! i = Some x → l !! j = Some y →
  f x = Some b → f y = Some b → i = j.
Proof.
  intros Hnd Hi Hj Hx Hy. destruct (decide (i = j)) as [|Hne]; [done|].
  exfalso. rewrite (omap_middle l i x Hi), Hx in Hnd. simpl in Hnd.
  assert (b ∈ omap f (take i l) ++ omap f (drop (S i) l)) as Hin.
  { rewrite elem_of_app, !list_elem_of_omap.
    destruct (decide (j < i)%nat).
    - left. exists y. split; [|done].
      apply list_elem_of_lookup. exists j. by rewrite lookup_take_lt.
    - right. exists y. split; [|done].
      apply list_elem_of_lookup. exists (j - S i)%nat.
      rewrite lookup_drop. rewrite <- Hj. f_equal. lia. }
  revert Hnd Hin. rewrite !NoDup_app, NoDup_cons. set_solver.
Qed.

Lemma NoDup_omap_insert l i x y :
  l !! i = Some x → NoDup (omap f l) →
  (f y = f x ∨ f y = None
   ∨ ∃ b, f y = Some b ∧ ∀ j u, j ≠ i → l !! j = Some u → f u ≠ Some b) →
  NoDup (omap f (<[i := y]> l)).
Proof.
  intros Hi Hnd Hy. rewrite (omap_insert l i x y Hi).
  destruct Hy as [Hy|[Hy|(b & Hy & Hfresh)]].
  - rewrite Hy. by rewrite <- (omap_middle l i x Hi).
  - rewrite Hy. simpl. by apply (NoDup_omap_without l i x).
  - rewrite Hy. simpl.
    pose proof (NoDup_omap_without l i x Hi Hnd) as Hw.
    assert (b ∉ omap f (take i l) ++ omap f (drop (S i) l)) as Hb.
    { intros Hin. apply elem_of_omap_others in Hin as (j & u & Hj & Hu & Hfu).
      by apply (Hfresh j u). }
    revert Hw Hb. rewrite !NoDup_app, NoDup_cons. set_solver.
Qed.

Lemma NoDup_omap_delete l i :
  NoDup (omap f l) → NoDup (omap f (base.delete i l)).
Proof.
  intros Hnd. destruct (l !! i) as [x|] eqn:Hi.
  - rewrite (omap_delete l i x Hi). by apply (NoDup_omap_without l i x).
  - rewrite delete_take_drop.
    apply lookup_ge_None in Hi.
    rewrite take_ge, drop_ge, app_nil_r by lia. done.
Qed.

Lemma NoDup_omap_snoc l y :
  NoDup (omap f l) →
  (f y = None ∨ ∃ b, f y = Some b ∧ ∀ u, u ∈ l → f u ≠ Some b) →
  NoDup (omap f (l ++ [y])).
Proof.
  intros Hnd Hy. rewrite omap_app. simpl.
  destruct Hy as [->|(b & -> & Hfresh)]; [by rewrite app_nil_r|].
  apply NoDup_app. split; [done|]. split; [|apply NoDup_singleton].
  intros b' Hb' ->%list_elem_of_singleton.
  apply list_elem_of_omap in Hb' as (u & Hu & Hfu). by apply (Hfresh u).
Qed.

End Keys.

(** ** The users handlers, case by case *)

Lemma check_and_update_run id body check w old :
  find (has_id (Some (VStr id))) (users (store w)) = Some old →
  ∃ i, users (store w) !! i = Some old
    ∧ Js.findIndex (has_id (Some (VStr id))) (users (store w)) = Some i
    ∧ UsersRouter.check_and_update id body check w
      = match (if check
               then find (UsersRouter.email_of_other id body) (users (store w))
               else None) with
        | Some _ =>
            (Returned (error_response 409 "User with this email already exists"
                         (clock_source w (clock_calls w))),
             (read_clock w).2)
        | None =>
            let merged :=
              merged_record old body (clock_source w (clock_calls w)) in
            (Returned {| status := 200;
                         payload := MessageDataJson "User updated successfully"
                                      (Some merged) |},
             updated Users i merged w)
        end.
Proof.
  intros Hold.
  destruct (update_found Users (Some (VStr id)) body w old Hold)
    as (i & Hi & Hfi & Hupd).
  exists i. split; [done|]. split; [done|].
  unfold UsersRouter.check_and_update. rewrite bind_run.
  destruct check.
  - rewrite bind_run. cbn [getAll read rows mret M_ret]. cbv beta iota.
    destruct (find (UsersRouter.email_of_other id body) _); cbv beta iota;
      [reflexivity|]. by step_with Hupd.
  - cbn [mret M_ret]. cbv beta iota. by step_with Hupd.
Qed.

Lemma users_put_run id body w :
  UsersRouter.put id body w
  = match find (has_id (Some (VStr id))) (users (store w)) with
    | None =>
        (error_response 404 "User not found" (clock_source w (clock_calls w)),
         (read_clock w).2)
    | Some existingUser =>
        try_catch
          (UsersRouter.check_and_update id body
             (negb (Js.strict_eq (existingUser !! "email") (body !! "email"))))
          "Failed to update user" w
    end.
Proof.
  unfold UsersRouter.put, try_catch. step_with getById_run. cbn [rows].
  by destruct (find _ _).
Qed.

Lemma users_patch_run id body w :
  UsersRouter.patch id body w
  = match find (has_id (Some (VStr id))) (users (store w)) with
    | None =>
        (error_response 404 "User not found" (clock_source w (clock_calls w)),
         (read_clock w).2)
    | Some existingUser =>
        try_catch
          (UsersRouter.check_and_update id body
             (Js.truthy (body !! "email")
              && negb (Js.strict_eq (existingUser !! "email") (body !! "email"))))
          "Failed to update user" w
    end.
Proof.
  unfold UsersRouter.patch, try_catch. step_with getById_run. cbn [rows].
  by destruct (find _ _).
Qed.

Lemma users_delete_run id w :
  store (UsersRouter.delete id w).2 = store w
  ∨ ∃ i, store (UsersRouter.delete id w).2
         = set_rows Users (base.delete i (users (store w))) (store w).
Proof.
  unfold UsersRouter.delete, Routes.delete_by_id, try_catch.
  step_with delete_run. cbn [rows].
  destruct (Js.findIndex _ _) as [i|]; [right; by exists i|by left].
Qed.

(** ** Emails stay unique *)

Lemma strict_eq_false_str (a : option value) e :
  Js.strict_eq a (Some (VStr e)) = false ↔ a ≠ Some (VStr e).
Proof.
  rewrite <- strict_eq_str. destruct (Js.strict_eq _ _); split; congruence.
Qed.


Lemma email_merged old body t :
  email (merged_record old body t)
  = match body !! "email" with
    | Some (VStr e) => Some e
    | Some _ => None
    | None => email old
    end.
Proof.
  unfold email. rewrite merged_record_lookup. case_decide; [done|].
  by destruct (body !! "email") as [[]|].
Qed.

Lemma email_new_record id body t1 t2 :
  email (new_record id body t1 t2)
  = match body !! "email" with
    | Some (VStr e) => Some e
    | _ => None
    end.
Proof.
  unfold email. rewrite new_record_lookup.
  repeat (case_decide; [done|]). by destruct (body !! "email") as [[]|].
Qed.

Lemma email_Some (u : obj) e : email u = Some e ↔ u !! "email" = Some (VStr e).
Proof.
  unfold email. destruct (u !! "email") as [[]|]; split; congruence.
Qed.

Lemma ident_Some (u : obj) i : ident u = Some i ↔ u !! "id" = Some (VStr i).
Proof.
  unfold ident. destruct (u !! "id") as [[]|]; split; congruence.
Qed.

(** After the check of [PUT] and [PATCH] has found no other user with the
    email of the request, the merged record keeps the emails unique. *)
Lemma emails_unique_updated id body w old i check :
  emails_unique (users (store w)) → ids_unique (users (store w)) →
  users (store w) !! i = Some old →
  Js.findIndex (has_id (Some (VStr id))) (users (store w)) = Some i →
  (∀ e, body !! "email" = Some (VStr e) → old !! "email" ≠ Some (VStr e) →
        check = true) →
  (if check
   then find (UsersRouter.email_of_other id body) (users (store w))
   else None) = None →
  emails_unique
    (<[i := merged_record old body (clock_source w (clock_calls w))]>
       (users (store w))).
Proof.
  intros Hem Hids Hi Hfi Hcheck Hnone.
  apply (NoDup_omap_insert email _ i old); [done|done|].
  rewrite email_merged.
  destruct (body !! "email") as [v|] eqn:Hb; [|by left].
  destruct v as [| | |e| |]; try (right; by left).
  destruct (Js.strict_eq (old !! "email") (Some (VStr e))) eqn:Hse.
  { apply strict_eq_str in Hse. left. symmetry. by apply email_Some. }
  apply strict_eq_false_str in Hse. rename Hse into Hdiff.
  right. right. exists e. split; [done|].
  intros j u Hj Hu Hue. apply email_Some in Hue.
  rewrite (Hcheck e eq_refl Hdiff) in Hnone.
  apply find_None_Forall in Hnone. rewrite Forall_forall in Hnone.
  assert (u ∈ users (store w)) as Hin by (apply list_elem_of_lookup; eauto).
  specialize (Hnone u Hin). unfold UsersRouter.email_of_other in Hnone.
  rewrite Hb, Hue in Hnone. simpl in Hnone. rewrite String.eqb_refl in Hnone.
  simpl in Hnone. apply negb_false_iff, strict_eq_str in Hnone.
  destruct (findIndex_Some _ _ _ Hfi) as (x & Hx & _ & Hxid & _).
  assert (x = old) as -> by congruence.
  apply strict_eq_str in Hxid.
  apply Hj. symmetry.
  apply (NoDup_omap_lookup ident _ i j old u id Hids Hi Hu); by apply ident_Some.
Qed.

Lemma store_updated c i r w :
  store (updated c i r w) = set_rows c (<[i := r]> (rows c (store w))) (store w).
Proof. reflexivity. Qed.

Lemma emails_unique_check_and_update id body check w old :
  emails_unique (users (store w)) → ids_unique (users (store w)) →
  find (has_id (Some (VStr id))) (users (store w)) = Some old →
  (∀ e, body !! "email" = Some (VStr e) → old !! "email" ≠ Some (VStr e) →
        check = true) →
  emails_unique
    (users (store (try_catch (UsersRouter.check_and_update id body check)
                     "Failed to update user" w).2)).
Proof.
  intros Hem Hids Hold Hcheck.
  destruct (check_and_update_run id body check w old Hold) as (i & Hi & Hfi & Hrun).
  unfold try_catch. rewrite Hrun.
  destruct (if check then _ else _) eqn:Hc; [done|].
  cbv zeta. cbn [snd]. rewrite store_updated. cbn [rows set_rows users].
  by apply (emails_unique_updated id body w old i check).
Qed.

(** What the handlers of the users keep where the ids differ: from a
    state in which no two users share an email and no two users share an
    id, the state after [POST /users], after [PUT /users/:id], after
    [PATCH /users/:id] (its email, when given, not being the empty
    string) and after [DELETE /users/:id] has no two users with the same
    email.  [PUT] and [PATCH] with an email that differs from the one of
    the user found, and that a user with another id has, are answered 409
    and leave the store unchanged. *)
Theorem users_operations_keep_emails_unique (w : World) :
  emails_unique (users (store w)) → ids_unique (users (store w)) →
  (∀ body, emails_unique (users (store (UsersRouter.post body w).2)))
  ∧ (∀ id body, emails_unique (users (store (UsersRouter.put id body w).2)))
  ∧ (∀ id body, body !! "email" ≠ Some (VStr "") →
       emails_unique (users (store (UsersRouter.patch id body w).2)))
  ∧ (∀ id, emails_unique (users (store (UsersRouter.delete id w).2)))
  ∧ (∀ id body existingUser other e,
       find (has_id (Some (VStr id))) (users (store w)) = Some existingUser →
       body !! "email" = Some (VStr e) → e ≠ "" →
       existingUser !! "email" ≠ Some (VStr e) →
       other ∈ users (store w) →
       other !! "email" = Some (VStr e) → other !! "id" ≠ Some (VStr id) →
       (UsersRouter.put id body w).1
       = error_response 409 "User with this email already exists"
           (clock_source w (clock_calls w))
       ∧ store (UsersRouter.put id body w).2 = store w
       ∧ (UsersRouter.patch id body w).1
         = error_response 409 "User with this email already exists"
             (clock_source w (clock_calls w))
       ∧ store (UsersRouter.patch id body w).2 = store w).
Proof.
  intros Hem Hids. split; [|split; [|split; [|split]]].
  - intros body. unfold UsersRouter.post, try_catch.
    rewrite bind_run. cbn [getAll read rows]. cbv beta iota.
    destruct (find (UsersRouter.same_email body) (users (store w))) eqn:Hf; [done|].
    step_with create_run. cbn [snd created store set_rows rows users].
    apply NoDup_omap_snoc; [done|].
    rewrite email_new_record.
    destruct (body !! "email") as [v|] eqn:Hb; [|by left].
    destruct v as [| | |e| |]; try by left.
    right. exists e. split; [done|]. intros u Hu Hue. apply email_Some in Hue.
    apply find_None_Forall in Hf. rewrite Forall_forall in Hf.
    specialize (Hf u Hu). unfold UsersRouter.same_email in Hf.
    rewrite Hb in Hf. by apply strict_eq_false_str in Hf.
  - intros id body. rewrite users_put_run.
    destruct (find _ _) as [old|] eqn:Hold; [|done].
    apply (emails_unique_check_and_update id body _ w old); try done.
    intros e Hb Hdiff. rewrite Hb. apply negb_true_iff.
    by apply strict_eq_false_str.
  - intros id body Hne. rewrite users_patch_run.
    destruct (find _ _) as [old|] eqn:Hold; [|done].
    apply (emails_unique_check_and_update id body _ w old); try done.
    intros e Hb Hdiff. rewrite Hb. apply andb_true_iff. split.
    + simpl. apply negb_true_iff, String.eqb_neq. congruence.
    + apply negb_true_iff. by apply strict_eq_false_str.
  - intros id. destruct (users_delete_run id w) as [->|(i & ->)]; [done|].
    cbn [set_rows users]. by apply NoDup_omap_delete.
  - intros id body old other e Hold Hb He Hdiff Hin Hoe Hoid.
    destruct (find (UsersRouter.email_of_other id body) (users (store w)))
      as [u|] eqn:Hf.
    2:{ exfalso. apply find_None_Forall in Hf. rewrite Forall_forall in Hf.
        specialize (Hf other Hin). unfold UsersRouter.email_of_other in Hf.
        rewrite Hb, Hoe in Hf. simpl in Hf. rewrite String.eqb_refl in Hf.
        simpl in Hf. apply negb_false_iff, strict_eq_str in Hf. done. }
    assert (Hneq : negb (Js.strict_eq (old !! "email") (body !! "email")) = true).
    { rewrite Hb. apply negb_true_iff. by apply strict_eq_false_str. }
    assert (Htruthy : Js.truthy (body !! "email") = true).
    { rewrite Hb. simpl. apply negb_true_iff. by apply String.eqb_neq. }
    rewrite users_put_run, users_patch_run, Hold. unfold try_catch.
    destruct (check_and_update_run id body
                (negb (Js.strict_eq (old !! "email") (body !! "email"))) w old Hold)
      as (i & _ & _ & ->).
    destruct (check_and_update_run id body
                (Js.truthy (body !! "email")
                 && negb (Js.strict_eq (old !! "email") (body !! "email"))) w old Hold)
      as (i' & _ & _ & ->).
    rewrite Htruthy, Hneq. cbn [andb]. rewrite Hf. done.
Qed.

(** ** What [PATCH] overwrites *)

Lemma filter_nil_find {A} (p : A → bool) (l : list A) :
  List.filter p l = [] → find p l = None.
Proof.
  induction l as [|x l IH]; simpl; [done|]. destruct (p x); [done|apply IH].
Qed.

(** Replacing the only record that satisfies [p] by one that does not
    leaves none. *)
Lemma find_insert_only {A} (p : A → bool) (l : list A) (i : nat) (y : A) :
  Js.findIndex p l = Some i →
  length (List.filter p l) = 1%nat →
  p y = false →
  find p (<[i := y]> l) = None.
Proof.
  revert i. induction l as [|x l IH]; intros i; simpl; [done|].
  destruct (p x) eqn:Hx.
  - intros [= <-] Hlen Hy. simpl. rewrite Hy.
    apply filter_nil_find. simpl in Hlen.
    destruct (List.filter p l); [done|simpl in Hlen; lia].
  - destruct (Js.findIndex p l) as [k|]; simpl; [|done].
    intros [= <-] Hlen Hy. simpl. rewrite Hx. by apply IH.
Qed.

(** C10, as amended: a [PATCH /users/:id] request that passes the
    validation and is answered 200 stores the [id] and the [createdAt] of
    its body, when it has them, in the record of the user found; when the
    body gives an id other than the one of the request and no other stored
    user has the id of the request, [GET /users/:id] with the old id is
    then answered 404 "User not found".  A [PATCH /orders/:id] request
    that passes the validation, for an existing order, stores the
    [totalAmount] and the [products] of its body, when it has them. *)
Theorem patch_overwrites_unvalidated_fields `{Runtime} `{Checks} (w : World)
    (id : string) (body : obj) :
  isUUID id = true →
  (∀ existingUser,
     (Validation.run_chains UsersRouter.patch_chains body).1 = [] →
     find (has_id (Some (VStr id))) (users (store w)) = Some existingUser →
     status (UsersRouter.patch_route id body w).1 = 200%Z →
     ∃ merged i,
       (UsersRouter.patch_route id body w).1
       = {| status := 200;
            payload := MessageDataJson "User updated successfully"
                         (Some merged) |}
       ∧ users (store w) !! i = Some existingUser
       ∧ store (UsersRouter.patch_route id body w).2
         = set_rows Users (<[i := merged]> (users (store w))) (store w)
       ∧ (∀ name v, name ∈ ["id"; "createdAt"] → body !! name = Some v →
          merged !! name = Some v)
       ∧ (∀ new, body !! "id" = Some (VStr new) → new ≠ id →
          length (List.filter (has_id (Some (VStr id))) (users (store w)))
          = 1%nat →
          (IdRoutes.users_get id (UsersRouter.patch_route id body w).2).1
          = error_response 404 "User not found"
              (clock_source w (S (clock_calls w)))))
  ∧ (∀ existingOrder,
       Validation.body_optional_isIn body "status" OrdersRouter.statuses
         "Invalid status" = [] →
       find (has_id (Some (VStr id))) (orders (store w)) = Some existingOrder →
       ∃ merged i,
         (OrdersRouter.patch_route id body w).1
         = {| status := 200;
              payload := MessageDataJson "Order updated successfully"
                           (Some merged) |}
         ∧ orders (store w) !! i = Some existingOrder
         ∧ store (OrdersRouter.patch_route id body w).2
           = set_rows Orders (<[i := merged]> (orders (store w))) (store w)
         ∧ (∀ name v, name ∈ ["totalAmount"; "products"] →
            body !! name = Some v → merged !! name = Some v)).
Proof.
  intros Huuid. split.
  - intros old Hpass Hold.
    unfold IdRoutes.users_get, UsersRouter.patch_route.
    rewrite route_with_id_passes by done.
    set (sent := (Validation.run_chains UsersRouter.patch_chains body).2).
    destruct (users_patch_sent body) as (_ & _ & Hrest). fold sent in Hrest.
    intros Hst. rewrite users_patch_run, Hold in *.
    destruct (check_and_update_run id sent
                (Js.truthy (sent !! "email")
                 && negb (Js.strict_eq (old !! "email") (sent !! "email")))
                w old Hold) as (i & Hi & Hfi & Hrun).
    unfold try_catch in *. rewrite Hrun in *.
    destruct (if _ && _ then _ else _); [done|]. cbv zeta.
    eexists _, i. split; [reflexivity|]. split; [done|]. split; [reflexivity|].
    split.
    + intros name v Hname Hv.
      assert (Hs : sent !! name = Some v).
      { rewrite Hrest; [done| |]; intros ->; set_solver. }
      rewrite merged_record_lookup, Hs.
      case_decide as Hu; [subst; set_solver|done].
    + intros new Hnew Hne Hlen. cbn [snd].
      unfold Validation.param_id_isUUID. rewrite Huuid.
      cbn [Validation.validate]. unfold UsersRouter.get.
      rewrite get_by_id_run, store_updated. cbn [rows set_rows users].
      rewrite (find_insert_only _ _ i); [done|done|done|].
      unfold has_id. rewrite merged_record_lookup, Hrest, Hnew by done.
      case_decide; [done|]. apply strict_eq_false_str. congruence.
  - intros old Hpass Hold.
    unfold OrdersRouter.patch_route, Validation.param_id_isUUID.
    rewrite Huuid, Hpass. cbn [app Validation.validate].
    destruct (patch_order_found w id body old Hold) as (i & Hi & ->).
    eexists _, i. split; [reflexivity|]. split; [done|]. split; [reflexivity|].
    intros name v Hname Hv. rewrite merged_record_lookup, Hv.
    case_decide as Hu; [subst; set_solver|done].
Qed.

(** * Further properties of the code *)

(** ** What a computation may write *)

Section Within.
Context (R : Store → Store → Prop) (R_refl : ∀ s, R s s)
  (R_trans : ∀ s1 s2 s3, R s1 s2 → R s2 s3 → R s1 s3).

Lemma within_ret {A} (a : A) : Effects.within R (mret a : M A).
Proof using R_refl. intros w. apply R_refl. Qed.

Lemma within_throw {A} : Effects.within R (throw : M A).
Proof using R_refl. intros w. apply R_refl. Qed.

Lemma within_lift {A} (o : outcome A) : Effects.within R (Routes.lift o).
Proof using R_refl. intros w. apply R_refl. Qed.

Lemma within_now : Effects.within R now.
Proof using R_refl. intros w. apply R_refl. Qed.

Lemma within_uuidv4 : Effects.within R uuidv4.
Proof using R_refl. intros w. apply R_refl. Qed.

Lemma within_read c : Effects.within R (read c).
Proof using R_refl. intros w. apply R_refl. Qed.

Lemma within_bind {A B} (m : M A) (f : A → M B) :
  Effects.within R m → (∀ a, Effects.within R (f a)) →
  Effects.within R (m ≫= f).
Proof using R_trans.
  intros Hm Hf w. rewrite bind_run. specialize (Hm w).
  destruct (m w) as [[a|] w1]; simpl in *; [|done].
  eapply R_trans; [exact Hm|apply Hf].
Qed.

Lemma within_try_catch (m : M response) msg :
  Effects.within R m → Effects.handles_within R (try_catch m msg).
Proof using R_refl.
  intros Hm w. unfold try_catch. specialize (Hm w).
  destruct (m w) as [[r|] w1]; simpl in *; done.
Qed.

Lemma within_validate errors next :
  Effects.handles_within R next →
  Effects.handles_within R (Validation.validate errors next).
Proof using R_refl.
  intros Hn w. unfold Validation.validate.
  destruct errors; [apply Hn|apply R_refl].
Qed.

End Within.

Ltac within_auto :=
  repeat first
    [ assumption
    | apply within_ret; assumption
    | apply within_throw; assumption
    | apply within_lift; assumption
    | apply within_now; assumption
    | apply within_uuidv4; assumption
    | apply within_read; assumption
    | apply within_bind; [assumption| |intros ?]
    | match goal with
      | |- Effects.within _ (match ?x with _ => _ end) => destruct x
      end ].

Section Reads.
Context `{Runtime}.
Context (R : Store → Store → Prop) (R_refl : ∀ s, R s s)
  (R_trans : ∀ s1 s2 s3, R s1 s2 → R s2 s3 → R s1 s3).

Lemma within_getAll c : Effects.within R (getAll c).
Proof using R_refl. by apply within_read. Qed.

Lemma within_getById c id : Effects.within R (getById c id).
Proof using R_refl R_trans. unfold getById. within_auto. Qed.

Lemma within_respond_error code msg : Effects.within R (respond_error code msg).
Proof using R_refl R_trans. unfold respond_error. within_auto. Qed.

Lemma within_prop v name : Effects.within R (OrdersRouter.prop v name).
Proof using R_refl R_trans. unfold OrdersRouter.prop. within_auto. Qed.

Lemma within_iterate v : Effects.within R (OrdersRouter.iterate v).
Proof using R_refl R_trans. unfold OrdersRouter.iterate. within_auto. Qed.

Lemma within_validate_products items total acc :
  Effects.within R (OrdersRouter.validate_products items total acc).
Proof using R_refl R_trans.
  revert total acc. induction items as [|item items IH]; intros total acc;
    cbn [OrdersRouter.validate_products]; [by apply within_ret|].
  apply within_bind; [done|apply within_prop|intros productId].
  apply within_bind; [done|apply within_getById|intros [product|]].
  - destruct (negb _).
    + apply within_bind; [done|apply within_respond_error|intros r].
      by apply within_ret.
    + apply within_bind; [done|apply within_prop|intros quantity]. apply IH.
  - apply within_bind; [done|apply within_respond_error|intros r].
    by apply within_ret.
Qed.

Lemma within_products_exist items :
  Effects.within R (OrdersRouter.products_exist items).
Proof using R_refl R_trans.
  induction items as [|item items IH];
    cbn [OrdersRouter.products_exist]; [by apply within_ret|].
  apply within_bind; [done|apply within_prop|intros productId].
  apply within_bind; [done|apply within_getById|intros [product|]]; [done|].
  apply within_bind; [done|apply within_respond_error|intros r].
  by apply within_ret.
Qed.

Lemma within_users_filtered query : Effects.within R (UsersRouter.filtered query).
Proof using R_refl R_trans.
  unfold UsersRouter.filtered.
  apply within_bind; [done|by apply within_getAll|intros users].
  apply within_bind; [done| |intros users1].
  { destruct (Routes.given _); [by apply within_lift|by apply within_ret]. }
  apply within_bind; [done| |intros users2; by apply within_ret].
  destruct (Routes.given _); by apply within_ret.
Qed.

Lemma within_products_filtered query :
  Effects.within R (ProductsRouter.filtered query).
Proof using R_refl R_trans.
  unfold ProductsRouter.filtered.
  apply within_bind; [done|by apply within_getAll|intros l0].
  apply within_bind; [done| |intros l1].
  { destruct (Routes.given _); [by apply within_lift|by apply within_ret]. }
  apply within_bind; [done| |intros l2].
  { destruct (Routes.given _); by apply within_ret. }
  apply within_bind; [done| |intros l3].
  { destruct (Routes.given _); by apply within_ret. }
  apply within_bind; [done| |intros l4].
  { destruct (Routes.given _); by apply within_ret. }
  apply within_bind; [done| |intros l5; by apply within_ret].
  destruct (query !! "inStock"); by apply within_ret.
Qed.

Lemma within_orders_filtered query :
  Effects.within R (OrdersRouter.filtered query).
Proof using R_refl R_trans.
  unfold OrdersRouter.filtered.
  apply within_bind; [done|by apply within_getAll|intros l0].
  apply within_bind; [done| |intros l1].
  { destruct (Routes.given _); by apply within_ret. }
  apply within_bind; [done| |intros l2].
  { destruct (Routes.given _); by apply within_ret. }
  apply within_bind; [done| |intros l3].
  { destruct (Routes.given _); by apply within_ret. }
  apply within_bind; [done| |intros l4; by apply within_ret].
  destruct (Routes.given _); by apply within_ret.
Qed.

Lemma within_get_by_id c id missing failed :
  Effects.handles_within R (Routes.get_by_id c id missing failed).
Proof using R_refl R_trans.
  unfold Routes.get_by_id. apply within_try_catch; [done|].
  apply within_bind; [done|apply within_getById|intros [r|]].
  - by apply within_ret.
  - apply within_respond_error.
Qed.

End Reads.

Section Writes.
Context `{Runtime}.
Context (R : Store → Store → Prop) (R_refl : ∀ s, R s s)
  (R_trans : ∀ s1 s2 s3, R s1 s2 → R s2 s3 → R s1 s3)
  (c : collection) (R_write : ∀ s l, R s (set_rows c l s)).

Lemma within_write l : Effects.within R (write c l).
Proof using R_write. intros w. apply R_write. Qed.

Lemma within_create data : Effects.within R (create c data).
Proof using R_refl R_trans R_write.
  unfold create, generateId, getCurrentTimestamp.
  apply within_bind; [done|by apply within_uuidv4|intros id].
  apply within_bind; [done|by apply within_now|intros t1].
  apply within_bind; [done|by apply within_now|intros t2].
  apply within_bind; [done|by apply within_read|intros l].
  apply within_bind; [done|apply within_write|intros _]. by apply within_ret.
Qed.

Lemma within_update id data : Effects.within R (update c id data).
Proof using R_refl R_trans R_write.
  unfold update, getCurrentTimestamp.
  apply within_bind; [done|by apply within_read|intros l].
  destruct (Js.findIndex _ _) as [i|]; [|by apply within_ret].
  destruct (l !! i); [|by apply within_ret].
  apply within_bind; [done|by apply within_now|intros t].
  apply within_bind; [done|apply within_write|intros _]. by apply within_ret.
Qed.

Lemma within_delete id : Effects.within R (DataStore.delete c id).
Proof using R_refl R_trans R_write.
  unfold DataStore.delete.
  apply within_bind; [done|by apply within_read|intros l].
  destruct (Js.findIndex _ _) as [i|]; [|by apply within_ret].
  apply within_bind; [done|apply within_write|intros _]. by apply within_ret.
Qed.

Lemma within_delete_by_id id missing deleted failed :
  Effects.handles_within R (Routes.delete_by_id c id missing deleted failed).
Proof using R_refl R_trans R_write.
  unfold Routes.delete_by_id. apply within_try_catch; [done|].
  apply within_bind; [done|apply within_delete|intros [|]].
  - by apply within_ret.
  - by apply within_respond_error.
Qed.

End Writes.

Section UsersWrites.
Context (R : Store → Store → Prop) (R_refl : ∀ s, R s s)
  (R_trans : ∀ s1 s2 s3, R s1 s2 → R s2 s3 → R s1 s3)
  (R_write : ∀ s l, R s (set_rows Users l s)).

Lemma within_users_post body : Effects.handles_within R (UsersRouter.post body).
Proof using R_refl R_trans R_write.
  unfold UsersRouter.post. apply within_try_catch; [done|].
  apply within_bind; [done|by apply within_getAll|intros all].
  destruct (find _ _); [by apply within_respond_error|].
  apply within_bind; [done|by apply within_create|intros r]. by apply within_ret.
Qed.

Lemma within_check_and_update id body changed :
  Effects.within R (UsersRouter.check_and_update id body changed).
Proof using R_refl R_trans R_write.
  unfold UsersRouter.check_and_update.
  apply within_bind; [done| |intros [u|]].
  - destruct changed; [|by apply within_ret].
    apply within_bind; [done|by apply within_getAll|intros all].
    by apply within_ret.
  - by apply within_respond_error.
  - apply within_bind; [done|by apply within_update|intros r].
    by apply within_ret.
Qed.

Lemma within_users_put id body : Effects.handles_within R (UsersRouter.put id body).
Proof using R_refl R_trans R_write.
  unfold UsersRouter.put. apply within_try_catch; [done|].
  apply within_bind; [done|by apply within_getById|intros [u|]].
  - apply within_check_and_update.
  - by apply within_respond_error.
Qed.

Lemma within_users_patch id body :
  Effects.handles_within R (UsersRouter.patch id body).
Proof using R_refl R_trans R_write.
  unfold UsersRouter.patch. apply within_try_catch; [done|].
  apply within_bind; [done|by apply within_getById|intros [u|]].
  - apply within_check_and_update.
  - by apply within_respond_error.
Qed.

End UsersWrites.

Section ProductsWrites.
Context (R : Store → Store → Prop) (R_refl : ∀ s, R s s)
  (R_trans : ∀ s1 s2 s3, R s1 s2 → R s2 s3 → R s1 s3)
  (R_write : ∀ s l, R s (set_rows Products l s)).

Lemma within_products_post body :
  Effects.handles_within R (ProductsRouter.post body).
Proof using R_refl R_trans R_write.
  unfold ProductsRouter.post. apply within_try_catch; [done|].
  apply within_bind; [done|by apply within_create|intros r]. by apply within_ret.
Qed.

Lemma within_products_put id body :
  Effects.handles_within R (ProductsRouter.put id body).
Proof using R_refl R_trans R_write.
  unfold ProductsRouter.put. apply within_try_catch; [done|].
  apply within_bind; [done|by apply within_getById|intros [u|]].
  - apply within_bind; [done|by apply within_update|intros r].
    by apply within_ret.
  - by apply within_respond_error.
Qed.

End ProductsWrites.

Section OrdersWrites.
Context `{Runtime}.
Context (R : Store → Store → Prop) (R_refl : ∀ s, R s s)
  (R_trans : ∀ s1 s2 s3, R s1 s2 → R s2 s3 → R s1 s3)
  (R_write : ∀ s l, R s (set_rows Orders l s)).

Lemma within_orders_post body : Effects.handles_within R (OrdersRouter.post body).
Proof using R_refl R_trans R_write.
  unfold OrdersRouter.post. apply within_try_catch; [done|].
  apply within_bind; [done|by apply within_getById|intros [u|]].
  - apply within_bind; [done|by apply within_iterate|intros items].
    apply within_bind; [done|by apply within_validate_products|].
    intros [r|[total lines]]; [by apply within_ret|].
    apply within_bind; [done|by apply within_create|intros r].
    by apply within_ret.
  - by apply within_respond_error.
Qed.

Lemma within_orders_put id body :
  Effects.handles_within R (OrdersRouter.put id body).
Proof using R_refl R_trans R_write.
  unfold OrdersRouter.put. apply within_try_catch; [done|].
  apply within_bind; [done|by apply within_getById|intros [o|]];
    [|by apply within_respond_error].
  apply within_bind; [done|by apply within_getById|intros [u|]];
    [|by apply within_respond_error].
  apply within_bind; [done|by apply within_iterate|intros items].
  apply within_bind; [done|by apply within_products_exist|intros [r|]].
  - by apply within_ret.
  - apply within_bind; [done|by apply within_update|intros r].
    by apply within_ret.
Qed.

Lemma within_orders_patch id body :
  Effects.handles_within R (OrdersRouter.patch id body).
Proof using R_refl R_trans R_write.
  unfold OrdersRouter.patch. apply within_try_catch; [done|].
  apply within_bind; [done|by apply within_getById|intros [o|]].
  - apply within_bind; [done|by apply within_update|intros r].
    by apply within_ret.
  - by apply within_respond_error.
Qed.

End OrdersWrites.

Lemma same_outside_refl c s : Effects.same_outside c s s.
Proof. by intros c' _. Qed.

Lemma same_outside_trans c s1 s2 s3 :
  Effects.same_outside c s1 s2 → Effects.same_outside c s2 s3 →
  Effects.same_outside c s1 s3.
Proof. intros H12 H23 c' Hc. by rewrite (H23 c' Hc), (H12 c' Hc). Qed.

Lemma same_outside_write c s l : Effects.same_outside c s (set_rows c l s).
Proof. intros c' Hc. by destruct c, c'. Qed.

(** X1: every handler writes to the collection of its own router only.
    Creating, replacing, patching or deleting a user leaves the products
    and the orders as they were (an order of a deleted user stays, with
    its userId); the same for a product (the lines and the totals of the
    orders that list it stay); and the orders handlers leave the users and
    the products as they were (placing an order changes no product). *)
Theorem handlers_write_their_own_collection `{Runtime} (id : string)
    (body : obj) :
  (Effects.handles_within (Effects.same_outside Users) (UsersRouter.post body)
   ∧ Effects.handles_within (Effects.same_outside Users) (UsersRouter.put id body)
   ∧ Effects.handles_within (Effects.same_outside Users)
       (UsersRouter.patch id body)
   ∧ Effects.handles_within (Effects.same_outside Users) (UsersRouter.delete id))
  ∧ (Effects.handles_within (Effects.same_outside Products)
       (ProductsRouter.post body)
     ∧ Effects.handles_within (Effects.same_outside Products)
         (ProductsRouter.put id body)
     ∧ Effects.handles_within (Effects.same_outside Products)
         (ProductsRouter.patch id body)
     ∧ Effects.handles_within (Effects.same_outside Products)
         (ProductsRouter.delete id))
  ∧ (Effects.handles_within (Effects.same_outside Orders)
       (OrdersRouter.post body)
     ∧ Effects.handles_within (Effects.same_outside Orders)
         (OrdersRouter.put id body)
     ∧ Effects.handles_within (Effects.same_outside Orders)
         (OrdersRouter.patch id body)
     ∧ Effects.handles_within (Effects.same_outside Orders)
         (OrdersRouter.delete id)).
Proof.
  repeat split.
  - apply within_users_post; auto using same_outside_refl, same_outside_write.
    apply same_outside_trans.
  - apply within_users_put; auto using same_outside_refl, same_outside_write.
    apply same_outside_trans.
  - apply within_users_patch; auto using same_outside_refl, same_outside_write.
    apply same_outside_trans.
  - apply within_delete_by_id; auto using same_outside_refl, same_outside_write.
    apply same_outside_trans.
  - apply within_products_post; auto using same_outside_refl, same_outside_write.
    apply same_outside_trans.
  - apply within_products_put; auto using same_outside_refl, same_outside_write.
    apply same_outside_trans.
  - apply within_products_put; auto using same_outside_refl, same_outside_write.
    apply same_outside_trans.
  - apply within_delete_by_id; auto using same_outside_refl, same_outside_write.
    apply same_outside_trans.
  - apply within_orders_post; auto using same_outside_refl, same_outside_write.
    apply same_outside_trans.
  - apply within_orders_put; auto using same_outside_refl, same_outside_write.
    apply same_outside_trans.
  - apply within_orders_patch; auto using same_outside_refl, same_outside_write.
    apply same_outside_trans.
  - apply within_delete_by_id; auto using same_outside_refl, same_outside_write.
    apply same_outside_trans.
Qed.

(** X2: reading never writes.  The six [GET] handlers (one record by id,
    or a list, of users, products and orders) leave the store as it was,
    whatever the request, also when a filter throws; and a [GET] by id that
    finds a record reads no clock either, so that asking again gives the
    same answer. *)
Theorem get_handlers_only_read `{Runtime} (id : string)
    (query : gmap string string) (w : World) :
  store (UsersRouter.get id w).2 = store w
  ∧ store (ProductsRouter.get id w).2 = store w
  ∧ store (OrdersRouter.get id w).2 = store w
  ∧ store (UsersRouter.get_list query w).2 = store w
  ∧ store (ProductsRouter.get_list query w).2 = store w
  ∧ store (OrdersRouter.get_list query w).2 = store w
  ∧ (status (UsersRouter.get id w).1 = 200%Z →
     UsersRouter.get id (UsersRouter.get id w).2 = UsersRouter.get id w)
  ∧ (status (ProductsRouter.get id w).1 = 200%Z →
     ProductsRouter.get id (ProductsRouter.get id w).2 = ProductsRouter.get id w)
  ∧ (status (OrdersRouter.get id w).1 = 200%Z →
     OrdersRouter.get id (OrdersRouter.get id w).2 = OrdersRouter.get id w).
Proof.
  assert (Hr : ∀ s : Store, s = s) by done.
  assert (Ht : ∀ s1 s2 s3 : Store, s1 = s2 → s2 = s3 → s1 = s3) by congruence.
  assert (Hget : ∀ c missing failed,
    status (Routes.get_by_id c id missing failed w).1 = 200%Z →
    Routes.get_by_id c id missing failed
      (Routes.get_by_id c id missing failed w).2
    = Routes.get_by_id c id missing failed w).
  { intros c missing failed. rewrite !get_by_id_run.
    destruct (find _ _) eqn:Hf; simpl; [|done].
    intros _. by rewrite Hf. }
  repeat split.
  - symmetry. by apply (within_get_by_id eq).
  - symmetry. by apply (within_get_by_id eq).
  - symmetry. by apply (within_get_by_id eq).
  - symmetry. unfold UsersRouter.get_list.
    apply (within_try_catch eq); [done|].
    apply within_bind; [done|by apply within_users_filtered|intros l].
    by apply within_ret.
  - symmetry. unfold ProductsRouter.get_list.
    apply (within_try_catch eq); [done|].
    apply within_bind; [done|by apply within_products_filtered|intros l].
    by apply within_ret.
  - symmetry. unfold OrdersRouter.get_list.
    apply (within_try_catch eq); [done|].
    apply within_bind; [done|by apply within_orders_filtered|intros l].
    by apply within_ret.
  - apply Hget.
  - apply Hget.
  - apply Hget.
Qed.

(** ** Deleting *)

Lemma rows_set_rows_other c c' l s :
  c' ≠ c → rows c' (set_rows c l s) = rows c' s.
Proof. by destruct c, c'. Qed.

(** X3: [delete(id)] removes the first record that has the id, and only
    that one.  When no record has the id it returns [false] and the state
    is unchanged; otherwise it returns [true], the records before and after
    the first match stay, in their order, there is one record fewer, and
    the other collections are untouched. *)
Theorem delete_removes_first_match (c : collection) (id : option value)
    (w : World) :
  (find (has_id id) (rows c (store w)) = None →
   DataStore.delete c id w = (Returned false, w))
  ∧ (∀ r, find (has_id id) (rows c (store w)) = Some r →
     ∃ i,
       rows c (store w) !! i = Some r
       ∧ (∀ j y, (j < i)%nat → rows c (store w) !! j = Some y →
          has_id id y = false)
       ∧ (DataStore.delete c id w).1 = Returned true
       ∧ rows c (store (DataStore.delete c id w).2)
         = take i (rows c (store w)) ++ drop (S i) (rows c (store w))
       ∧ S (length (rows c (store (DataStore.delete c id w).2)))
         = length (rows c (store w))
       ∧ ∀ c', c' ≠ c →
           rows c' (store (DataStore.delete c id w).2) = rows c' (store w)).
Proof.
  split.
  - intros Hnone. rewrite delete_run.
    apply findIndex_None in Hnone. by rewrite Hnone.
  - intros r Hr. destruct (find_findIndex _ _ _ Hr) as (i & Hi & Hli).
    destruct (findIndex_Some _ _ _ Hi) as (x & _ & _ & _ & Hbefore).
    exists i. rewrite delete_run, Hi. cbn [fst snd with_store store].
    split; [done|]. split; [done|]. split; [done|].
    rewrite rows_set_rows. split; [apply delete_take_drop|].
    split.
    + rewrite length_delete by eauto. apply lookup_lt_Some in Hli. lia.
    + intros c' Hc. by apply rows_set_rows_other.
Qed.





(** ** Updating *)

Lemma find_insert_first {A} (p : A → bool) (l : list A) (i : nat) (y : A) :
  Js.findIndex p l = Some i → p y = true → find p (<[i := y]> l) = Some y.
Proof.
  revert i. induction l as [|x l IH]; intros i; simpl; [done|].
  destruct (p x) eqn:Hx.
  - intros [= <-] Hy. simpl. by rewrite Hy.
  - destruct (Js.findIndex p l) as [k|]; simpl; [|done].
    intros [= <-] Hy. simpl. rewrite Hx. by apply IH.
Qed.

(** X5: after [update(id, partial)] has found a record, with a [partial]
    that carries no [id], [getById(id)] gives the record that [update]
    returned, and the collection has as many records as before. *)
Theorem update_then_getById (c : collection) (id : option value)
    (partial : obj) (w : World) (old : obj) :
  find (has_id id) (rows c (store w)) = Some old →
  partial !! "id" = None →
  ∃ merged,
    (update c id partial w).1 = Returned (Some merged)
    ∧ (getById c id (update c id partial w).2).1 = Returned (Some merged)
    ∧ merged !! "id" = old !! "id"
    ∧ length (rows c (store (update c id partial w).2))
      = length (rows c (store w)).
Proof.
  intros Hold Hid.
  destruct (update_found c id partial w old Hold) as (i & Hi & Hfi & ->).
  destruct (findIndex_Some _ _ _ Hfi) as (x & Hx & _ & Hp & _).
  assert (x = old) as -> by congruence.
  assert (Hm : merged_record old partial (clock_source w (clock_calls w)) !! "id"
               = old !! "id").
  { rewrite merged_record_lookup, Hid. by case_decide. }
  eexists. split; [reflexivity|]. cbn [snd].
  rewrite getById_run, store_updated, rows_set_rows. cbn [fst].
  split; [|split; [exact Hm|by rewrite length_insert]].
  f_equal. apply find_insert_first; [done|]. unfold has_id. by rewrite Hm.
Qed.



(** ** Creating *)

Lemma find_app_first {A} (p : A → bool) (l l' : list A) (x : A) :
  find p l = Some x → find p (l ++ l') = Some x.
Proof.
  induction l as [|y l IH]; simpl; [done|]. destruct (p y); [done|apply IH].
Qed.

(** X8: [create] appends.  The new record goes to the end of its
    collection, after the records that were there, which stay as they
    were; a record that [getById] found before is the one it finds
    afterwards, whatever the id of the new record; the other collections
    are untouched. *)
Theorem create_appends (c : collection) (data : obj) (w : World) :
  ∃ r,
    (create c data w).1 = Returned r
    ∧ rows c (store (create c data w).2) = rows c (store w) ++ [r]
    ∧ (∀ c', c' ≠ c →
       rows c' (store (create c data w).2) = rows c' (store w))
    ∧ ∀ id old,
        (getById c id w).1 = Returned (Some old) →
        (getById c id (create c data w).2).1 = Returned (Some old).
Proof.
  rewrite create_run. eexists. split; [reflexivity|].
  cbn [snd created store]. rewrite rows_set_rows. split; [done|].
  split; [intros c' Hc; by apply rows_set_rows_other|].
  intros id old. rewrite !getById_run. cbn [fst snd created store].
  rewrite rows_set_rows. intros [= Hold]. f_equal.
  by apply find_app_first.
Qed.

(** ** The id of a route *)

Section IdChecks.
Context `{Runtime}.

Lemma validate_refuses (id msg : string) (next : Handler) (w : World) :
  isUUID id = false →
  Validation.validate (Validation.param_id_isUUID id msg) next w
  = ({| status := 400;
        payload := ValidationJson (clock_source w (clock_calls w))
          [ {| field := "id"; message := msg; rejected := Some (VStr id) |} ] |},
     (read_clock w).2).
Proof. intros Hid. unfold Validation.param_id_isUUID. by rewrite Hid. Qed.

Lemma validate_passes (id msg : string) (next : Handler) :
  isUUID id = true →
  Validation.validate (Validation.param_id_isUUID id msg) next = next.
Proof. intros Hid. unfold Validation.param_id_isUUID. by rewrite Hid. Qed.

End IdChecks.

(** X9: an id that is not a UUID never reaches the store.  [GET /:id] and
    [DELETE /:id] of the three routers answer 400 "Validation failed"
    with one error, on the field [id], that carries the message of the
    router and the id given; the store is as before, also when a record
    has that id. *)
Theorem malformed_id_is_refused `{Runtime} (id : string) (w : World) :
  isUUID id = false →
  let refusal (msg : string) : response :=
    {| status := 400;
       payload := ValidationJson (clock_source w (clock_calls w))
         [ {| field := "id"; message := msg; rejected := Some (VStr id) |} ] |}
  in
  (IdRoutes.users_get id w).1 = refusal "Invalid user ID format"
  ∧ (IdRoutes.users_delete id w).1 = refusal "Invalid user ID format"
  ∧ (IdRoutes.products_get id w).1 = refusal "Invalid product ID format"
  ∧ (IdRoutes.products_delete id w).1 = refusal "Invalid product ID format"
  ∧ (IdRoutes.orders_get id w).1 = refusal "Invalid order ID format"
  ∧ (IdRoutes.orders_delete id w).1 = refusal "Invalid order ID format"
  ∧ store (IdRoutes.users_delete id w).2 = store w
  ∧ store (IdRoutes.products_delete id w).2 = store w
  ∧ store (IdRoutes.orders_delete id w).2 = store w.
Proof.
  intros Hid refusal.
  unfold IdRoutes.users_get, IdRoutes.users_delete, IdRoutes.products_get,
    IdRoutes.products_delete, IdRoutes.orders_get, IdRoutes.orders_delete.
  rewrite !validate_refuses by done. done.
Qed.

(** ** Filters *)




Section FilterFacts.
Context `{Runtime}.







End FilterFacts.



(** ** Pages *)

(** X12: which pages are empty.  With a [page] that is an integer from
    1 on and a [limit] between 1 and 100 (or their defaults), the answer
    is always 200, and its data is empty exactly when the page comes
    after the last one; in particular every page of an empty list is
    empty, and asking for a page that does not exist is no error. *)
Theorem page_is_empty_after_the_last `{Runtime} (query : gmap string string)
    (l : list obj) :
  valid_page (query !! "page") → valid_limit (query !! "limit") →
  let page := Routes.int_or (query !! "page") 1 in
  let limit := Routes.int_or (query !! "limit") 10 in
  let totalPages := Js.ceil_div (Z.of_nat (length l)) limit in
  status (Routes.paginate query l) = 200%Z
  ∧ (data_of (Routes.paginate query l) = [] ↔ (totalPages < page)%Z)
  ∧ (l = [] → totalPages = 0%Z).
Proof.
  intros Hp Hl page limit totalPages.
  pose proof (int_or_page _ Hp) as Hpage.
  pose proof (int_or_limit _ Hl) as Hlimit.
  fold page in Hpage. fold limit in Hlimit.
  pose proof (ceil_div_bounds (Z.of_nat (length l)) limit ltac:(lia)) as Hb.
  fold totalPages in Hb.
  split; [done|]. split.
  - unfold Routes.paginate, data_of. cbn [payload].
    fold page. fold limit. rewrite slice_page by lia.
    split.
    + intros Hnil.
      destruct (Z.lt_ge_cases totalPages page) as [|Hin]; [done|exfalso].
      assert (Hlt : (Z.to_nat (page - 1) * Z.to_nat limit < length l)%nat)
        by nia.
      destruct (drop _ l) as [|x d] eqn:Hd.
      * apply (f_equal length) in Hd. rewrite length_drop in Hd.
        simpl in Hd. lia.
      * destruct (Z.to_nat limit) eqn:Hn; [lia|]. simpl in Hnil. done.
    + intros Hpast. rewrite drop_ge by nia. by rewrite take_nil.
  - intros ->. subst totalPages. unfold Js.ceil_div. simpl.
    rewrite Z.div_0_l by lia. done.
Qed.

(** ** The error handler *)

Section ErrorHandler.
Context `{Runtime} `{Middleware.Engine}.

Lemma copied_message (err : obj) :
  match err !! "message" with
  | Some m => <["message" := m]> err
  | None => base.delete "message" err
  end = err.
Proof.
  destruct (err !! "message") as [m|] eqn:Hm.
  - by apply insert_id.
  - by apply delete_id.
Qed.

Lemma errorHandler_run (development : bool) (err : obj)
    (req : Middleware.Request) (w : World) :
  Middleware.errorHandler development err req w
  = match Middleware.classify err err with
    | Thrown => (Thrown, (read_clock w).2)
    | Returned error =>
        (Returned
           {| Middleware.statusCode :=
                Middleware.or_else (error !! "statusCode") (VNum 500);
              Middleware.message :=
                Middleware.or_else (error !! "message")
                  (VStr "Internal Server Error");
              Middleware.timestamp := clock_source w (S (clock_calls w));
              Middleware.path := Middleware.originalUrl req;
              Middleware.verb := Middleware.method req;
              Middleware.stack :=
                if development then err !! "stack" else None |},
         (read_clock (read_clock w).2).2)
    end.
Proof.
  unfold Middleware.errorHandler. rewrite copied_message.
  rewrite bind_run. unfold now at 1. cbv beta iota.
  rewrite bind_run. unfold Routes.lift.
  destruct (Middleware.classify err err); done.
Qed.

Lemma classify_unrecognised (err error : obj) :
  Middleware.recognised err = false →
  Middleware.classify err error = Returned error.
Proof.
  unfold Middleware.recognised, Middleware.classify. intros Hr.
  repeat (apply orb_false_elim in Hr; destruct Hr as [Hr ?]).
  by repeat match goal with Heq : Js.strict_eq _ _ = false |- _ =>
    rewrite Heq; clear Heq end.
Qed.

End ErrorHandler.

(** X13: a request that no route answers.  [notFound] followed by
    [errorHandler] answers 404 with the message "Route <url> not found",
    the path and the method of the request, with the stack of the error
    in development and without it otherwise; the store is untouched. *)
Theorem unmatched_route_is_404 `{Runtime} `{Middleware.Engine}
    (development : bool) (req : Middleware.Request) (trace : string)
    (w : World) :
  Middleware.unmatched development req trace w
  = (Returned
       {| Middleware.statusCode := VNum 404;
          Middleware.message :=
            VStr ("Route " +:+ Middleware.originalUrl req +:+ " not found");
          Middleware.timestamp := clock_source w (S (clock_calls w));
          Middleware.path := Middleware.originalUrl req;
          Middleware.verb := Middleware.method req;
          Middleware.stack :=
            if development then Some (VStr trace) else None |},
     (read_clock (read_clock w).2).2)
  ∧ store (Middleware.unmatched development req trace w).2 = store w.
Proof.
  unfold Middleware.unmatched. rewrite errorHandler_run.
  rewrite classify_unrecognised by reflexivity.
  split; [|done]. reflexivity.
Qed.

(** X14: the defaults of the error handler.  For an error that none of
    its tests recognises, the status is the [statusCode] of the error, or
    500 when it has none (or a falsy one); the message is the message of
    the error, or "Internal Server Error"; the stack is sent in
    development only; the store is untouched. *)
Theorem error_handler_defaults `{Runtime} `{Middleware.Engine}
    (development : bool) (err : obj) (req : Middleware.Request) (w : World) :
  Middleware.recognised err = false →
  ∃ reply,
    (Middleware.errorHandler development err req w).1 = Returned reply
    ∧ store (Middleware.errorHandler development err req w).2 = store w
    ∧ Middleware.statusCode reply
      = (if Js.truthy (err !! "statusCode")
         then default (VNum 500) (err !! "statusCode") else VNum 500)
    ∧ Middleware.message reply
      = (if Js.truthy (err !! "message")
         then default (VStr "Internal Server Error") (err !! "message")
         else VStr "Internal Server Error")
    ∧ Middleware.stack reply
      = (if development then err !! "stack" else None)
    ∧ Middleware.path reply = Middleware.originalUrl req
    ∧ Middleware.verb reply = Middleware.method req.
Proof.
  intros Hr. rewrite errorHandler_run, classify_unrecognised by done.
  eexists. split; [reflexivity|]. split; [done|]. cbn.
  unfold Middleware.or_else.
  split; [by destruct (err !! "statusCode")|].
  split; [by destruct (err !! "message")|done].
Qed.

(** X15: a body that does not parse.  An error whose [type] is
    "entity.parse.failed" (and whose name is not "ValidationError") is
    answered 400 "Invalid JSON format", whatever status and message the
    error has, and whichever of the earlier tests hold of it. *)
Theorem parse_failure_is_400 `{Runtime} `{Middleware.Engine}
    (development : bool) (err : obj) (req : Middleware.Request) (w : World) :
  err !! "type" = Some (VStr "entity.parse.failed") →
  err !! "name" ≠ Some (VStr "ValidationError") →
  ∃ reply,
    (Middleware.errorHandler development err req w).1 = Returned reply
    ∧ Middleware.statusCode reply = VNum 400
    ∧ Middleware.message reply = VStr "Invalid JSON format".
Proof.
  intros Ht Hn. rewrite errorHandler_run. unfold Middleware.classify.
  rewrite Ht.
  destruct (Js.strict_eq (err !! "name") (Some (VStr "ValidationError")))
    eqn:Hv; [by apply strict_eq_str in Hv|].
  cbn [Js.strict_eq String.eqb Ascii.eqb Bool.eqb].
  eexists. split; [reflexivity|]. split; reflexivity.
Qed.

(** X16: the error handler can fail itself.  For an error named
    "ValidationError" whose [errors] are missing or [null],
    [Object.values(err.errors)] throws: no answer is sent, here, and the
    store is untouched. *)
Theorem validation_error_without_errors_throws `{Runtime}
    `{Middleware.Engine} (development : bool) (err : obj)
    (req : Middleware.Request) (w : World) :
  err !! "name" = Some (VStr "ValidationError") →
  (err !! "errors" = None ∨ err !! "errors" = Some VNull) →
  (Middleware.errorHandler development err req w).1 = Thrown
  ∧ store (Middleware.errorHandler development err req w).2 = store w.
Proof.
  intros Hn He. rewrite errorHandler_run. unfold Middleware.classify.
  rewrite Hn. cbn [Js.strict_eq String.eqb Ascii.eqb Bool.eqb].
  by destruct He as [-> | ->].
Qed.

(** ** Ids stay unique *)

Lemma has_id_ident (id : string) (r : obj) :
  has_id (Some (VStr id)) r = true ↔ ident r = Some id.
Proof. unfold has_id. by rewrite strict_eq_str, ident_Some. Qed.

Lemma carriers_not_elem (id : string) (l : list obj) :
  id ∉ omap ident l → Filters.carriers id l = 0%nat.
Proof.
  unfold Filters.carriers. induction l as [|x l IH]; simpl; [done|].
  intros Hnot. destruct (has_id (Some (VStr id)) x) eqn:Hx.
  - apply has_id_ident in Hx. rewrite Hx in Hnot. set_solver.
  - apply IH. destruct (ident x); set_solver.
Qed.

Lemma carriers_unique (id : string) (l : list obj) :
  ids_unique l → (Filters.carriers id l ≤ 1)%nat.
Proof.
  unfold ids_unique, Filters.carriers.
  induction l as [|x l IH]; simpl; [lia|].
  intros Hnd. destruct (has_id (Some (VStr id)) x) eqn:Hx.
  - apply has_id_ident in Hx. rewrite Hx in Hnd. apply NoDup_cons in Hnd.
    simpl. pose proof (carriers_not_elem id l (proj1 Hnd)) as H0.
    unfold Filters.carriers in H0. lia.
  - apply IH. destruct (ident x); [by apply NoDup_cons in Hnd as [_ ?]|done].
Qed.

Lemma carriers_none (id : string) (l : list obj) (u : obj) :
  Filters.carriers id l = 0%nat → u ∈ l → ident u ≠ Some id.
Proof.
  unfold Filters.carriers. intros Hc Hu Hid. apply has_id_ident in Hid.
  assert (u ∈ List.filter (has_id (Some (VStr id))) l) as Hin.
  { apply list_elem_of_In, filter_In. split; [by apply list_elem_of_In|done]. }
  destruct (List.filter _ l); [set_solver|done].
Qed.

(** X17: the three operations of a collection that write keep the ids
    of its records different.  From a collection in which no two records
    have the same id: [create] keeps it so when the data carry no id and
    no record has the generated id; [update] keeps it so when the partial
    carries no id; [delete] always keeps it so.  With different ids, at
    most one record has a given id. *)
Theorem store_operations_keep_ids_unique (c : collection) (w : World) :
  ids_unique (rows c (store w)) →
  (∀ data,
     data !! "id" = None →
     Filters.carriers (uuid_source w (uuid_calls w)) (rows c (store w))
     = 0%nat →
     ids_unique (rows c (store (create c data w).2)))
  ∧ (∀ id partial,
       partial !! "id" = None →
       ids_unique (rows c (store (update c id partial w).2)))
  ∧ (∀ id, ids_unique (rows c (store (DataStore.delete c id w).2)))
  ∧ (∀ id, (Filters.carriers id (rows c (store w)) ≤ 1)%nat).
Proof.
  intros Hids. split; [|split; [|split]].
  - intros data Hd Hfresh. rewrite create_run.
    cbn [snd created store]. rewrite rows_set_rows.
    apply NoDup_omap_snoc; [done|]. right.
    exists (uuid_source w (uuid_calls w)). split.
    + apply has_id_ident. by apply has_id_new_record.
    + intros u Hu. by apply (carriers_none _ (rows c (store w))).
  - intros id partial Hp. rewrite update_run.
    destruct (Js.findIndex _ _) as [i|]; [|done].
    destruct (rows c (store w) !! i) as [old|] eqn:Hold; [|done].
    cbn [snd with_store store]. rewrite rows_set_rows.
    apply (NoDup_omap_insert _ _ _ old); [done|done|]. left.
    unfold ident. rewrite merged_record_lookup, Hp. by case_decide.
  - intros id. rewrite delete_run.
    destruct (Js.findIndex _ _) as [i|]; [|done].
    cbn [snd with_store store]. rewrite rows_set_rows.
    by apply NoDup_omap_delete.
  - intros id. by apply carriers_unique.
Qed.

(** * The properties at concrete requests *)

(** From here on the runtime is the concrete one. *)
#[local] Existing Instance Sample.runtime.

#[local] Existing Instance Sample.checks.

(** C1 at a concrete request: two pens and three pads ordered by John, the
    request giving 1 as the price of each, are stored at the prices of the
    product collection, 10 and 5, with totalAmount 35 and the status
    pending. *)
Lemma post_order_total_35 :
  ∃ newOrder,
    (OrdersRouter.post Sample.priced_request Sample.stationery).1
    = {| status := 201;
         payload := MessageDataJson "Order created successfully" (Some newOrder) |}
    ∧ newOrder !! "products"
      = Some (VArr
          [ VObj {[ "productId" := VStr Sample.pen; "quantity" := VNum 2;
                    "price" := VNum 10 ]};
            VObj {[ "productId" := VStr Sample.pad; "quantity" := VNum 3;
                    "price" := VNum 5 ]} ])
    ∧ newOrder !! "totalAmount" = Some (VNum 35)
    ∧ newOrder !! "status" = Some (VStr "pending").
Proof.
  destruct (post_order_snapshots_and_total Sample.stationery
              Sample.priced_request Sample.priced_lines)
    as (newOrder & Hr & _ & Hp & Ht & Hs).
  - exists john_doe. reflexivity.
  - reflexivity.
  - repeat constructor; eexists; reflexivity.
  - constructor; [exists Sample.a_pen; split; reflexivity|].
    constructor; [exists Sample.a_pad; split; reflexivity|]. constructor.
  - exists newOrder. split; [exact Hr|].
    split; [rewrite Hp; reflexivity|]. split; [|exact Hs].
    rewrite Ht. reflexivity.
Defined.


(** C3, the counterexample.  No stored user has the address
    "John.Doe@Example.com" as it is written; the request passes the
    validation, and is answered 409: the handler compares the address that
    [normalizeEmail] has put in lower case, which is John's. *)
Lemma post_user_capitals_conflict :
  find (UsersRouter.same_email Cases.capital_john) (users (store Sample.world))
  = None
  ∧ (Validation.run_chains UsersRouter.post_chains Cases.capital_john).1 = []
  ∧ (UsersRouter.post_route Cases.capital_john Sample.world).1
    = error_response 409 "User with this email already exists"
        "2024-02-01T09:00:00.000Z"
  ∧ store (UsersRouter.post_route Cases.capital_john Sample.world).2
    = store Sample.world.
Proof. repeat split; reflexivity. Qed.

(** C3 as amended, at concrete requests: a second user with John's email
    is refused with 409 whatever its other fields, and Eve, whose email is
    new, is created by the store. *)
Lemma post_user_email_conflict_at_john :
  ((UsersRouter.post_route Sample.second_john Sample.world).1
   = error_response 409 "User with this email already exists"
       "2024-02-01T09:00:00.000Z"
   ∧ store (UsersRouter.post_route Sample.second_john Sample.world).2
     = store Sample.world)
  ∧ ∃ newUser w',
      create Users
        (Validation.run_chains UsersRouter.post_chains Sample.eve).2
        Sample.world = (Returned newUser, w')
      ∧ UsersRouter.post_route Sample.eve Sample.world
        = ({| status := 201;
              payload := MessageDataJson "User created successfully"
                           (Some newUser) |}, w').
Proof.
  destruct (post_user_email_conflict Sample.world Sample.second_john)
    as (_ & Hdup & _); [reflexivity|].
  destruct (post_user_email_conflict Sample.world Sample.eve)
    as (_ & _ & Hnew); [reflexivity|].
  split.
  - apply Hdup. apply Exists_cons_hd. reflexivity.
  - apply Hnew. repeat constructor.
Defined.

(** C4 at the failing requests.  From the initial state, [PATCH] Jane
    with John's id in the body (the emails are still all different), then
    [PATCH] the id that both now carry with Jane's email: the check skips
    Jane, who has the id of the request, the answer is 200, and John and
    Jane end with the same email. *)
Lemma patch_breaks_email_uniqueness :
  let w1 := (UsersRouter.patch_route Sample.jane {[ "id" := VStr Sample.john ]}
               Sample.world).2 in
  let r2 := UsersRouter.patch_route Sample.john
              {[ "email" := VStr "jane.smith@example.com" ]} w1 in
  emails_unique (users (store Sample.world))
  ∧ emails_unique (users (store w1))
  ∧ status r2.1 = 200%Z
  ∧ omap email (users (store r2.2))
    = ["jane.smith@example.com"; "jane.smith@example.com"]
  ∧ ¬ emails_unique (users (store r2.2)).
Proof.
  cbv zeta.
  split; [apply (bool_decide_unpack _); vm_compute; exact I|].
  split; [apply (bool_decide_unpack _); vm_compute; exact I|].
  split; [reflexivity|].
  split; [reflexivity|].
  apply (bool_decide_unpack _). vm_compute. exact I.
Qed.



(** C6, the counterexample.  (1) Eve is created while the clock advances:
    the record read back has two different stamps.  (2) An order is
    created: the record read back has lines with a price, a totalAmount
    and a status, none of which was submitted.  (3) Eve is created with
    John's id in the body: the id returned is John's, not the generated
    one, and reading it back gives John.  (4) Eve is created with a blank
    before her name and capitals in her address: the record read back has
    the name without the blank and the address in lower case. *)
Lemma round_trip_counterexample :
  (∃ r,
     (UsersRouter.post_route Sample.eve Sample.world).1
     = {| status := 201;
          payload := MessageDataJson "User created successfully" (Some r) |}
     ∧ (IdRoutes.users_get (Sample.uuids 0)
          (UsersRouter.post_route Sample.eve Sample.world).2).1
       = {| status := 200; payload := DataJson (Some r) |}
     ∧ r !! "createdAt" = Some (VStr "2024-02-01T09:00:00.000Z")
     ∧ r !! "updatedAt" = Some (VStr "2024-02-01T09:00:00.001Z")
     ∧ r !! "createdAt" ≠ r !! "updatedAt")
  ∧ (∃ r,
       (OrdersRouter.post Sample.order_request Sample.stationery).1
       = {| status := 201;
            payload := MessageDataJson "Order created successfully" (Some r) |}
       ∧ (IdRoutes.orders_get (Sample.uuids 0)
            (OrdersRouter.post Sample.order_request Sample.stationery).2).1
         = {| status := 200; payload := DataJson (Some r) |}
       ∧ r !! "products"
         = Some (VArr
             [ VObj {[ "productId" := VStr Sample.pen; "quantity" := VNum 2;
                       "price" := VNum 10 ]};
               VObj {[ "productId" := VStr Sample.pad; "quantity" := VNum 3;
                       "price" := VNum 5 ]} ])
       ∧ r !! "products" ≠ Sample.order_request !! "products"
       ∧ r !! "totalAmount" = Some (VNum 35)
       ∧ Sample.order_request !! "totalAmount" = None
       ∧ r !! "status" = Some (VStr "pending")
       ∧ Sample.order_request !! "status" = None)
  ∧ (∃ r,
       (UsersRouter.post_route Sample.eve_as_john Sample.world).1
       = {| status := 201;
            payload := MessageDataJson "User created successfully" (Some r) |}
       ∧ r !! "id" = Some (VStr Sample.john)
       ∧ Sample.uuids 0 ≠ Sample.john
       ∧ (IdRoutes.users_get Sample.john
            (UsersRouter.post_route Sample.eve_as_john Sample.world).2).1
         = {| status := 200; payload := DataJson (Some john_doe) |}
       ∧ john_doe !! "name" = Some (VStr "John Doe")
       ∧ Sample.eve_as_john !! "name" = Some (VStr "Eve Adams"))
  ∧ (∃ r,
       (UsersRouter.post_route Cases.spaced_eve Sample.world).1
       = {| status := 201;
            payload := MessageDataJson "User created successfully" (Some r) |}
       ∧ (IdRoutes.users_get (Sample.uuids 0)
            (UsersRouter.post_route Cases.spaced_eve Sample.world).2).1
         = {| status := 200; payload := DataJson (Some r) |}
       ∧ Cases.spaced_eve !! "name" = Some (VStr " Eve Adams")
       ∧ r !! "name" = Some (VStr "Eve Adams")
       ∧ Cases.spaced_eve !! "email" = Some (VStr "Eve@Example.com")
       ∧ r !! "email" = Some (VStr "eve@example.com")).
Proof.
  split; [|split; [|split]].
  - exists (new_record (Sample.uuids 0) Sample.eve
              "2024-02-01T09:00:00.000Z" "2024-02-01T09:00:00.001Z").
    repeat (split; [reflexivity|]). vm_compute. discriminate.
  - exists (new_record (Sample.uuids 0)
              (order_data Sample.order_request
                 (snapshot Sample.stationery_products <$> Sample.pens_and_pads))
              "2024-02-01T09:00:00.000Z" "2024-02-01T09:00:00.001Z").
    repeat (split; [reflexivity|]).
    split.
    { intros Heq.
      apply (f_equal (λ v, match v with
                           | Some (VArr (line :: _)) => attribute line "price"
                           | _ => None
                           end)) in Heq.
      vm_compute in Heq. discriminate. }
    repeat split; reflexivity.
  - exists (new_record (Sample.uuids 0) Sample.eve_as_john
              "2024-02-01T09:00:00.000Z" "2024-02-01T09:00:00.001Z").
    repeat (split; [reflexivity|]).
    split; [discriminate|]. repeat split; reflexivity.
  - exists (new_record (Sample.uuids 0) Sample.eve
              "2024-02-01T09:00:00.000Z" "2024-02-01T09:00:00.001Z").
    repeat split; reflexivity.
Qed.

(** C6 as amended, at concrete requests: Eve, sent with a blank before
    her name and capitals in her address, and two pens and three pads for
    John, created and read back by the generated id. *)
Lemma create_then_get_by_id_at_eve :
  (∃ r,
     (UsersRouter.post_route Cases.spaced_eve Sample.world).1
     = {| status := 201;
          payload := MessageDataJson "User created successfully" (Some r) |}
     ∧ (IdRoutes.users_get (Sample.uuids 0)
          (UsersRouter.post_route Cases.spaced_eve Sample.world).2).1
       = {| status := 200; payload := DataJson (Some r) |}
     ∧ stamped r Sample.eve Sample.world)
  ∧ (∃ r,
       (OrdersRouter.post Sample.order_request Sample.stationery).1
       = {| status := 201;
            payload := MessageDataJson "Order created successfully" (Some r) |}
       ∧ (IdRoutes.orders_get (Sample.uuids 0)
            (OrdersRouter.post Sample.order_request Sample.stationery).2).1
         = {| status := 200; payload := DataJson (Some r) |}
       ∧ r !! "id" = Some (VStr (Sample.uuids 0))).
Proof.
  destruct (create_then_get_by_id Sample.world Cases.spaced_eve)
    as (Huser & _ & _); [reflexivity|].
  destruct (create_then_get_by_id Sample.stationery Sample.order_request)
    as (_ & _ & Horder); [reflexivity|].
  split.
  - destruct Huser as (r & Hr & Hg & Hs & _); try reflexivity.
    exists r. split; [exact Hr|]. split; [exact Hg|exact Hs].
  - destruct Horder as (r & Hr & Hg & Hid & _); [reflexivity|reflexivity|].
    exists r. split; [exact Hr|]. split; [exact Hg|exact Hid].
Defined.

(** C7 at concrete arguments: updating an id that is not stored changes
    nothing, and updating John's age keeps his name and refreshes
    updatedAt. *)
Lemma update_is_shallow_merge_at_john :
  update Users (Some (VStr Sample.stranger)) {[ "age" := VNum 31 ]} Sample.world
  = (Returned None, Sample.world)
  ∧ ∃ merged,
      (update Users (Some (VStr Sample.john)) {[ "age" := VNum 31 ]}
         Sample.world).1 = Returned (Some merged)
      ∧ merged !! "age" = Some (VNum 31)
      ∧ merged !! "name" = Some (VStr "John Doe")
      ∧ merged !! "updatedAt" = Some (VStr "2024-02-01T09:00:00.000Z").
Proof.
  destruct (update_is_shallow_merge Users (Some (VStr Sample.stranger))
              {[ "age" := VNum 31 ]} Sample.world) as [Habsent _].
  destruct (update_is_shallow_merge Users (Some (VStr Sample.john))
              {[ "age" := VNum 31 ]} Sample.world) as [_ Hpresent].
  split; [apply Habsent; reflexivity|].
  destruct (Hpresent john_doe eq_refl)
    as (merged & i & Hr & _ & _ & Hin & Hout & Ht).
  exists merged. split; [exact Hr|].
  split; [apply Hin; [reflexivity|discriminate]|].
  split; [|exact Ht].
  rewrite Hout; [reflexivity|reflexivity|discriminate].
Defined.




(** C10, the counterexample.  From the initial state, [PATCH] Jane with
    John's id in the body, then [PATCH] the id that both now carry with a
    new id: John gets the new id, and reading the old id still finds a
    user, Jane.  And a [PATCH] of John whose body carries a new id
    together with Jane's email is answered 409: nothing is overwritten. *)
Lemma old_id_still_found :
  let r1 := UsersRouter.patch_route Sample.jane {[ "id" := VStr Sample.john ]}
              Sample.world in
  let r2 := UsersRouter.patch_route Sample.john
              {[ "id" := VStr Sample.elsewhere ]} r1.2 in
  let r3 := IdRoutes.users_get Sample.john r2.2 in
  let r4 := UsersRouter.patch_route Sample.john
              {[ "id" := VStr Sample.elsewhere;
                 "email" := VStr "jane.smith@example.com" ]} Sample.world in
  status r1.1 = 200%Z
  ∧ status r2.1 = 200%Z
  ∧ (ident <$> users (store r2.2))
    = [Some Sample.elsewhere; Some Sample.john]
  ∧ status r3.1 = 200%Z
  ∧ (∃ found, payload r3.1 = DataJson (Some found)
              ∧ found !! "name" = Some (VStr "Jane Smith"))
  ∧ status r4.1 = 409%Z
  ∧ store r4.2 = store Sample.world.
Proof.
  cbv zeta. repeat (split; [reflexivity|]).
  split; [|split; reflexivity].
  exists (merged_record jane_smith {[ "id" := VStr Sample.john ]}
            "2024-02-01T09:00:00.000Z").
  split; reflexivity.
Qed.

(** C10 as amended, at concrete requests: a [PATCH] of John whose body
    carries an id and a createdAt overwrites both, after which John's old
    id is not found; a [PATCH] of the first order whose body carries a
    totalAmount overwrites it. *)
Lemma patch_overwrites_id_of_john :
  (∃ merged,
     (UsersRouter.patch_route Sample.john
        {[ "id" := VStr Sample.elsewhere; "createdAt" := VStr "1999" ]}
        Sample.world).1
     = {| status := 200;
          payload := MessageDataJson "User updated successfully" (Some merged) |}
     ∧ merged !! "id" = Some (VStr Sample.elsewhere)
     ∧ merged !! "createdAt" = Some (VStr "1999")
     ∧ (IdRoutes.users_get Sample.john
          (UsersRouter.patch_route Sample.john
             {[ "id" := VStr Sample.elsewhere; "createdAt" := VStr "1999" ]}
             Sample.world).2).1
       = error_response 404 "User not found" "2024-02-01T09:00:00.001Z")
  ∧ ∃ merged,
      (OrdersRouter.patch_route Sample.first_order {[ "totalAmount" := VNum 1 ]}
         Sample.world).1
      = {| status := 200;
           payload := MessageDataJson "Order updated successfully" (Some merged) |}
      ∧ merged !! "totalAmount" = Some (VNum 1).
Proof.
  destruct (patch_overwrites_unvalidated_fields Sample.world Sample.john
              {[ "id" := VStr Sample.elsewhere; "createdAt" := VStr "1999" ]})
    as [Huser _]; [reflexivity|].
  destruct (patch_overwrites_unvalidated_fields Sample.world Sample.first_order
              {[ "totalAmount" := VNum 1 ]}) as [_ Horder]; [reflexivity|].
  split.
  - destruct (Huser john_doe)
      as (merged & i & Hr & _ & _ & Hall & Hget).
    + reflexivity.
    + reflexivity.
    + reflexivity.
    + exists merged. split; [exact Hr|].
      split; [apply Hall; [apply list_elem_of_lookup; by exists 0%nat|reflexivity]|].
      split; [apply Hall; [apply list_elem_of_lookup; by exists 1%nat|reflexivity]|].
      apply (Hget Sample.elsewhere); [reflexivity|discriminate|reflexivity].
  - destruct (Horder delivered_order)
      as (merged & i & Hr & _ & _ & Hall).
    + reflexivity.
    + reflexivity.
    + exists merged. split; [exact Hr|].
      apply Hall; [apply list_elem_of_lookup; by exists 0%nat|reflexivity].
Defined.

#[local] Existing Instance Cases.engine.

(** ** The further properties at concrete requests *)

(** Deleting Jane from the initial state: she is the second user. *)
Lemma delete_removes_first_match_at_jane :
  ∃ i,
    users (store Sample.world) !! i = Some jane_smith
    ∧ (DataStore.delete Users (Some (VStr Sample.jane)) Sample.world).1
      = Returned true
    ∧ users (store (DataStore.delete Users (Some (VStr Sample.jane))
                      Sample.world).2)
      = [ john_doe ].
Proof.
  destruct (proj2 (delete_removes_first_match Users (Some (VStr Sample.jane))
                     Sample.world) jane_smith)
    as (i & Hi & Hbefore & Hdone & Hrows & _).
  - reflexivity.
  - exists i. split; [exact Hi|]. split; [exact Hdone|].
    destruct i as [|[|i]]; [exfalso|exact Hrows|discriminate Hi].
    apply (f_equal (λ o, o ≫= (.!! "name"))) in Hi. discriminate Hi.
Defined.


(** John is renamed, then read. *)
Lemma update_then_getById_at_john :
  ∃ merged,
    (update Users (Some (VStr Sample.john)) Cases.renamed Sample.world).1
    = Returned (Some merged)
    ∧ (getById Users (Some (VStr Sample.john))
         (update Users (Some (VStr Sample.john)) Cases.renamed
            Sample.world).2).1
      = Returned (Some merged)
    ∧ merged !! "id" = john_doe !! "id"
    ∧ length (rows Users
                (store (update Users (Some (VStr Sample.john)) Cases.renamed
                          Sample.world).2))
      = length (rows Users (store Sample.world)).
Proof.
  apply (update_then_getById Users (Some (VStr Sample.john)) Cases.renamed
           Sample.world john_doe); reflexivity.
Defined.



(** "42" is not a UUID. *)
Lemma malformed_id_is_refused_at_42 :
  (IdRoutes.users_get "42" Sample.world).1
  = {| status := 400;
       payload := ValidationJson "2024-02-01T09:00:00.000Z"
         [ {| field := "id"; message := "Invalid user ID format";
              rejected := Some (VStr "42") |} ] |}
  ∧ store (IdRoutes.users_delete "42" Sample.world).2 = store Sample.world.
Proof.
  pose proof (malformed_id_is_refused "42" Sample.world eq_refl) as Hall.
  split; [exact (proj1 Hall)|].
  exact (proj1 (proj2 (proj2 (proj2 (proj2 (proj2 (proj2 Hall))))))).
Defined.


(** The third page of the two users of the initial state, two per page. *)
Lemma page_is_empty_after_the_last_at_3 :
  data_of (Routes.paginate {[ "page" := "3"; "limit" := "2" ]} seed_users)
  = [].
Proof.
  destruct (page_is_empty_after_the_last {[ "page" := "3"; "limit" := "2" ]}
              seed_users) as (_ & Hempty & _).
  - exists 3%Z. split; [reflexivity|lia].
  - exists 2%Z. split; [reflexivity|lia].
  - apply Hempty. reflexivity.
Defined.

(** An error with a message and no status, in production. *)
Lemma error_handler_defaults_at_boom :
  ∃ reply,
    (Middleware.errorHandler false Cases.boom Cases.nowhere Sample.world).1
    = Returned reply
    ∧ Middleware.statusCode reply = VNum 500
    ∧ Middleware.message reply = VStr "boom"
    ∧ Middleware.stack reply = None.
Proof.
  destruct (error_handler_defaults false Cases.boom Cases.nowhere Sample.world
              eq_refl) as (reply & Hrun & _ & Hcode & Hmsg & Hstack & _).
  exists reply. split; [exact Hrun|]. split; [exact Hcode|].
  split; [exact Hmsg|exact Hstack].
Defined.

(** The error of the body parser. *)
Lemma parse_failure_is_400_at_bad_json :
  ∃ reply,
    (Middleware.errorHandler false Cases.bad_json Cases.nowhere Sample.world).1
    = Returned reply
    ∧ Middleware.statusCode reply = VNum 400
    ∧ Middleware.message reply = VStr "Invalid JSON format".
Proof.
  apply (parse_failure_is_400 false Cases.bad_json Cases.nowhere Sample.world).
  - reflexivity.
  - discriminate.
Defined.

(** A validation error without [errors]. *)
Lemma validation_error_without_errors_throws_bare :
  (Middleware.errorHandler false Cases.bare_validation_error Cases.nowhere
     Sample.world).1 = Thrown
  ∧ store (Middleware.errorHandler false Cases.bare_validation_error
             Cases.nowhere Sample.world).2 = store Sample.world.
Proof.
  apply (validation_error_without_errors_throws false
           Cases.bare_validation_error Cases.nowhere Sample.world).
  - reflexivity.
  - left. reflexivity.
Defined.

(** The users of the initial state have different ids: they still have
    after Eve is created, and after John is deleted. *)
Lemma store_operations_keep_ids_unique_at_start :
  ids_unique (users (store (create Users Sample.eve Sample.world).2))
  ∧ ids_unique
      (users (store (DataStore.delete Users (Some (VStr Sample.john))
                       Sample.world).2)).
Proof.
  destruct (store_operations_keep_ids_unique Users Sample.world)
    as (Hcreate & _ & Hdelete & _).
  - apply (bool_decide_unpack _). vm_compute. exact I.
  - split; [apply Hcreate; reflexivity|apply Hdelete].
Defined.

